(** * The agency cache manager of nalgonda

    A shallow embedding of [AgencyManager] (src/nalgonda/agency_manager.py)
    and of the capability registry [TOOL_MAPPING]
    (nalgonda/custom_tools/__init__.py), together with the properties of
    the cache key derivation, the cache operations, the thread-id
    reconciliation and the agent factory. *)

From stdpp Require Import base option list strings gmap.
From Stdlib Require Import Ascii.

Local Open Scope string_scope.

(** ** Python values *)

(** Truth value of a [str | None]: [None] and the empty string are falsy. *)
Definition truthy (s : option string) : bool :=
  match s with
  | Some s => negb (String.eqb s "")
  | None => false
  end.

(** [str(x)] of a [str | None], as an f-string field renders it. *)
Definition format_field (s : option string) : string :=
  match s with
  | Some s => s
  | None => "None"
  end.

(** ** The cache key *)

(** [AgencyManager.get_cache_key]:
    [f"{agency_id}/{thread_id}" if thread_id else agency_id]. *)
Definition get_cache_key (agency_id : string) (thread_id : option string) : string :=
  if truthy thread_id
  then agency_id ++ "/" ++ format_field thread_id
  else agency_id.


(** ** The capability registry *)

(** The tool classes that [TOOL_MAPPING] maps names to. *)
Inductive Tool : Type :=
  | CodeInterpreter
  | Retrieval
  | BuildDirectoryTree
  | GenerateProposal
  | PrintFileContents
  | SaveLeadToAirtable
  | SearchWeb
  | SummarizeCode
  | WriteAndSaveProgram.

#[global] Instance Tool_eq_dec : EqDecision Tool.
Proof. solve_decision. Defined.

(** [TOOL_MAPPING], the static dictionary from tool names to tool classes. *)
Definition TOOL_MAPPING : gmap string Tool :=
  list_to_map
    [ ("CodeInterpreter", CodeInterpreter);
      ("Retrieval", Retrieval);
      ("BuildDirectoryTree", BuildDirectoryTree);
      ("GenerateProposal", GenerateProposal);
      ("PrintFileContents", PrintFileContents);
      ("SaveLeadToAirtable", SaveLeadToAirtable);
      ("SearchWeb", SearchWeb);
      ("SummarizeCode", SummarizeCode);
      ("WriteAndSaveProgram", WriteAndSaveProgram) ].

(** [tool in TOOL_MAPPING] *)
Definition in_TOOL_MAPPING (tool : string) : bool :=
  bool_decide (is_Some (TOOL_MAPPING !! tool)).

(** ** Configuration records and agents *)

(** One agent of an agency configuration; the fields are the ones
    [load_agency_from_config] reads. *)
Module AgentConfig.
Record t : Type := mk {
  id : option string;
  role : string;
  description : string;
  instructions : string;
  files_folder : option string;
  tools : list string
}.
End AgentConfig.

(** An [agency_swarm.Agent], as the keyword arguments of its constructor. *)
Module Agent.
Record t : Type := mk {
  id : option string;
  name : string;
  description : string;
  instructions : string;
  files_folder : option string;
  tools : list Tool
}.
End Agent.

(** An element of a communication chart: a single item, or a list of them
    (the [isinstance(chart, list)] case). *)
Inductive ChartEntry (A : Type) : Type :=
  | Single (x : A)
  | Group (xs : list A).
Arguments Single {A} x.
Arguments Group {A} xs.

(** The roles an entry of the chart mentions, in order. *)
Definition entry_roles (entry : ChartEntry string) : list string :=
  match entry with
  | Single role => [role]
  | Group roles => roles
  end.

Module AgencyConfig.
Record t : Type := mk {
  agency_manifesto : string;
  agents : list AgentConfig.t;
  agency_chart : list (ChartEntry string)
}.
End AgencyConfig.

(** The roles a configuration declares, and the ones its chart references. *)
Definition declared_roles (config : AgencyConfig.t) : list string :=
  AgentConfig.role <$> AgencyConfig.agents config.

Definition chart_roles (config : AgencyConfig.t) : list string :=
  concat (entry_roles <$> AgencyConfig.agency_chart config).

(** The first role, in the order the chart is read, that no agent of the
    configuration has; [None] when every role of the chart is declared. *)
Definition undeclared_role (config : AgencyConfig.t) : option string :=
  find (λ role, bool_decide (role ∉ declared_roles config)) (chart_roles config).

(** ** Exceptions *)

(** [KeyError] is what a dictionary subscript raises.
    [ConfigurationNotFound] is the configuration store's error and
    [GraphConstructionError] the runtime's error for a rejected chart. *)
Inductive Exception : Type :=
  | KeyError (key : string)
  | ConfigurationNotFound (agency_id : string)
  | GraphConstructionError (detail : string).

#[global] Instance Exception_eq_dec : EqDecision Exception.
Proof. solve_decision. Defined.

(** A computation that returns or raises, and touches no state. *)
Definition Result (A : Type) : Type := Exception + A.

Definition result_bind {A B : Type} (r : Result A) (k : A → Result B) : Result B :=
  match r with
  | inl e => inl e
  | inr a => k a
  end.

(** ** The agent factory, pure part *)

(** [[TOOL_MAPPING[tool] for tool in tools if tool in TOOL_MAPPING]]: the
    subscript is only evaluated under the membership test, so it is the
    lookup that succeeded. *)
Fixpoint resolve_tools (tools : list string) : list Tool :=
  match tools with
  | [] => []
  | tool :: rest =>
      match TOOL_MAPPING !! tool with
      | Some cls => cls :: resolve_tools rest
      | None => resolve_tools rest
      end
  end.

(** [Agent(id=..., name=f"{role}_{agency_id}", ...)] for one agent
    configuration. *)
Definition build_agent (agency_id : string) (agent_conf : AgentConfig.t) : Agent.t :=
  {| Agent.id := AgentConfig.id agent_conf;
     Agent.name := AgentConfig.role agent_conf ++ "_" ++ agency_id;
     Agent.description := AgentConfig.description agent_conf;
     Agent.instructions := AgentConfig.instructions agent_conf;
     Agent.files_folder := AgentConfig.files_folder agent_conf;
     Agent.tools := resolve_tools (AgentConfig.tools agent_conf) |}.

(** The dictionary comprehension [{agent_conf.role: Agent(...) for
    agent_conf in config.agents}]: entries are stored in order, a later
    agent with the same role replaces the earlier one. *)
Definition build_agents (agency_id : string) (confs : list AgentConfig.t)
    : gmap string Agent.t :=
  foldl (λ d agent_conf,
           <[AgentConfig.role agent_conf := build_agent agency_id agent_conf]> d)
        ∅ confs.

(** [agents[role]] *)
Definition subscript (agents : gmap string Agent.t) (role : string) : Result Agent.t :=
  match agents !! role with
  | Some agent => inr agent
  | None => inl (KeyError role)
  end.

(** [[agents[role] for role in chart]], evaluated left to right. *)
Fixpoint subscript_all (agents : gmap string Agent.t) (roles : list string)
    : Result (list Agent.t) :=
  match roles with
  | [] => inr []
  | role :: rest =>
      result_bind (subscript agents role) (λ agent,
      result_bind (subscript_all agents rest) (λ others,
      inr (agent :: others)))
  end.

(** One element of the [agency_chart] comprehension. *)
Definition build_chart_entry (agents : gmap string Agent.t) (chart : ChartEntry string)
    : Result (ChartEntry Agent.t) :=
  match chart with
  | Group roles => result_bind (subscript_all agents roles) (λ l, inr (Group l))
  | Single role => result_bind (subscript agents role) (λ agent, inr (Single agent))
  end.

(** The [agency_chart] comprehension over [config.agency_chart]. *)
Fixpoint build_chart (agents : gmap string Agent.t) (charts : list (ChartEntry string))
    : Result (list (ChartEntry Agent.t)) :=
  match charts with
  | [] => inr []
  | chart :: rest =>
      result_bind (build_chart_entry agents chart) (λ entry,
      result_bind (build_chart agents rest) (λ entries,
      inr (entry :: entries)))
  end.

(** ** What the manager depends on

    The [agency_swarm] library and the OpenAI API behind it are a black
    box: [Agency] is a reference to a live agency object and [Runtime] the
    state the library keeps (threads, assistants, settings.json).
    [uuid4_hex n] is the value of the [n]-th call of [uuid.uuid4().hex].
    [update_agent_ids_in_config] is the method of [AgencyConfig] of that
    name, whose body is not part of the sources at hand. *)
Class Environment : Type := {
  Agency : Type;
  Runtime : Type;
  (** [Agency(agency_chart, shared_instructions=...)] *)
  Agency_new : list (ChartEntry Agent.t) → string → Runtime → Result Agency * Runtime;
  (** [agency.main_thread.id] *)
  main_thread_id : Runtime → Agency → option string;
  (** [agency.agents] *)
  Agency_agents : Runtime → Agency → list Agent.t;
  uuid4_hex : nat → string;
  update_agent_ids_in_config : AgencyConfig.t → string → list Agent.t → AgencyConfig.t
}.

(** How a call ends: it returns, it raises, or it is suspended on the lock
    (in a run with no other task to release it, for good). *)
Inductive Outcome (A : Type) : Type :=
  | Return (a : A)
  | Raise (e : Exception)
  | Blocked.
Arguments Return {A} a.
Arguments Raise {A} e.
Arguments Blocked {A}.

Section Manager.
Context `{Env : Environment}.

(** The manager ([self.cache], [self.lock]) and what surrounds it: the
    configuration store, the runtime and the number of identifiers drawn
    so far. *)
Record World : Type := mkWorld {
  cache : gmap string Agency;
  locked : bool;
  store : gmap string AgencyConfig.t;
  runtime : Runtime;
  uuid_calls : nat
}.

Definition set_cache (c : gmap string Agency) (w : World) : World :=
  mkWorld c (locked w) (store w) (runtime w) (uuid_calls w).

Definition set_locked (b : bool) (w : World) : World :=
  mkWorld (cache w) b (store w) (runtime w) (uuid_calls w).

Definition set_store (s : gmap string AgencyConfig.t) (w : World) : World :=
  mkWorld (cache w) (locked w) s (runtime w) (uuid_calls w).

Definition set_runtime (r : Runtime) (w : World) : World :=
  mkWorld (cache w) (locked w) (store w) r (uuid_calls w).

Definition set_uuid_calls (n : nat) (w : World) : World :=
  mkWorld (cache w) (locked w) (store w) (runtime w) n.

(** A coroutine or function of the manager, run to its end. *)
Definition Task (A : Type) : Type := World → Outcome A * World.

Definition ret {A : Type} (a : A) : Task A := λ w, (Return a, w).

Definition raise {A : Type} (e : Exception) : Task A := λ w, (Raise e, w).

Definition bind {A B : Type} (m : Task A) (k : A → Task B) : Task B :=
  λ w, match m w with
       | (Return a, w') => k a w'
       | (Raise e, w') => (Raise e, w')
       | (Blocked, w') => (Blocked, w')
       end.

Definition lift {A : Type} (r : Result A) : Task A :=
  match r with
  | inl e => raise e
  | inr a => ret a
  end.

Definition read {A : Type} (f : World → A) : Task A := λ w, (Return (f w), w).

Definition modify (f : World → World) : Task unit := λ w, (Return (), f w).

(** [async with self.lock: body]: the lock is taken on entry and released
    on every exit of the body, by return or by exception. *)
Definition async_with_lock {A : Type} (body : Task A) : Task A :=
  λ w, if locked w then (Blocked, w)
       else match body (set_locked true w) with
            | (Blocked, w') => (Blocked, w')
            | (r, w') => (r, set_locked false w')
            end.

End Manager.

Arguments World {Env}.
Arguments Task {Env} A.

#[global] Instance Task_ret `{Env : Environment} : MRet Task := @ret Env.
#[global] Instance Task_bind `{Env : Environment} : MBind Task :=
  λ A B k m, bind m k.

Section Operations.
Context `{Env : Environment}.

(** *** The configuration store *)

(** Modelled from the spec: [AgencyConfig.load], whose body is not part of
    the sources at hand. The configuration store answers
    [load(identity) -> AgencyConfig | absent], and the factory "fails with
    [ConfigurationNotFound] if the store has no record". *)
Definition AgencyConfig_load (agency_id : string) : Task AgencyConfig.t :=
  stored ← read (λ w, store w !! agency_id);
  match stored with
  | Some config => mret config
  | None => raise (ConfigurationNotFound agency_id)
  end.

(** Modelled from the spec: [AgencyConfig.save], whose body is not part of
    the sources at hand. The configuration store offers
    [save(config) -> void]; the record is persisted under the identity. *)
Definition AgencyConfig_save (config : AgencyConfig.t) (agency_id : string) : Task unit :=
  modify (λ w, set_store (<[agency_id := config]> (store w)) w).

(** *** The agent factory *)

(** The call [Agency(agency_chart, shared_instructions=...)] into the
    runtime. *)
Definition Agency_call (agency_chart : list (ChartEntry Agent.t))
    (shared_instructions : string) : Task Agency :=
  λ w, match Agency_new agency_chart shared_instructions (runtime w) with
       | (inr agency, r) => (Return agency, set_runtime r w)
       | (inl e, r) => (Raise e, set_runtime r w)
       end.

(** [AgencyManager.load_agency_from_config]. The two calls of [time.time]
    and the log line have no effect on the result and are left out. *)
Definition load_agency_from_config (agency_id : string) : Task Agency :=
  config ← AgencyConfig_load agency_id;
  let agents := build_agents agency_id (AgencyConfig.agents config) in
  agency_chart ← lift (build_chart agents (AgencyConfig.agency_chart config));
  agency ← Agency_call agency_chart (AgencyConfig.agency_manifesto config);
  built ← read (λ w, Agency_agents (runtime w) agency);
  let config := update_agent_ids_in_config config agency_id built in
  AgencyConfig_save config agency_id;;
  mret agency.

(** *** The cache manager *)

(** [uuid.uuid4().hex] *)
Definition uuid4 : Task string :=
  λ w, (Return (uuid4_hex (uuid_calls w)), set_uuid_calls (S (uuid_calls w)) w).

(** [agency_id or uuid.uuid4().hex]: the right operand is evaluated only
    when the left one is falsy. *)
Definition agency_id_or_uuid (agency_id : option string) : Task string :=
  match agency_id with
  | Some given => if truthy agency_id then mret given else uuid4
  | None => uuid4
  end.

(** [asyncio.to_thread(f, x)], awaited: in a run of one task at a time it
    is the call [f(x)]. *)
Definition to_thread {A : Type} (call : Task A) : Task A := call.

(** [AgencyManager.create_agency] *)
Definition create_agency (agency_id : option string) : Task (Agency * string) :=
  agency_id ← agency_id_or_uuid agency_id;
  async_with_lock (
    agency ← to_thread (load_agency_from_config agency_id);
    modify (λ w, set_cache (<[agency_id := agency]> (cache w)) w);;
    mret (agency, agency_id)).

(** [AgencyManager.get_agency] *)
Definition get_agency (agency_id : string) (thread_id : option string)
    : Task (option Agency) :=
  async_with_lock (read (λ w, cache w !! get_cache_key agency_id thread_id)).

(** [AgencyManager.cache_agency] *)
Definition cache_agency (agency : Agency) (agency_id : string)
    (thread_id : option string) : Task unit :=
  async_with_lock (
    let cache_key := get_cache_key agency_id thread_id in
    modify (λ w, set_cache (<[cache_key := agency]> (cache w)) w)).

(** [AgencyManager.delete_agency_from_cache]; [pop(key, None)] removes the
    entry when there is one and does nothing otherwise. *)
Definition delete_agency_from_cache (agency_id : string) (thread_id : option string)
    : Task unit :=
  async_with_lock (
    modify (λ w, set_cache (delete (get_cache_key agency_id thread_id) (cache w)) w)).

(** [AgencyManager.refresh_thread_id] *)
Definition refresh_thread_id (agency : Agency) (agency_id : string)
    (thread_id : option string) : Task (option string) :=
  new_thread_id ← read (λ w, main_thread_id (runtime w) agency);
  if bool_decide (thread_id ≠ new_thread_id) then
    cache_agency agency agency_id new_thread_id;;
    delete_agency_from_cache agency_id thread_id;;
    mret new_thread_id
  else mret None.

(** *** Runs of calls *)

(** A call into the manager from the serving layer, or a change of the
    runtime's own state between two calls (a conversational turn). *)
Inductive Call : Type :=
  | CreateAgency (agency_id : option string)
  | GetAgency (agency_id : string) (thread_id : option string)
  | CacheAgency (agency : Agency) (agency_id : string) (thread_id : option string)
  | DeleteAgencyFromCache (agency_id : string) (thread_id : option string)
  | RefreshThreadId (agency : Agency) (agency_id : string) (thread_id : option string)
  | Turn (change : Runtime → Runtime).

(** The world a call leaves behind, whatever its outcome. *)
Definition run_call (call : Call) (w : World) : World :=
  match call with
  | CreateAgency agency_id => (create_agency agency_id w).2
  | GetAgency agency_id thread_id => (get_agency agency_id thread_id w).2
  | CacheAgency agency agency_id thread_id =>
      (cache_agency agency agency_id thread_id w).2
  | DeleteAgencyFromCache agency_id thread_id =>
      (delete_agency_from_cache agency_id thread_id w).2
  | RefreshThreadId agency agency_id thread_id =>
      (refresh_thread_id agency agency_id thread_id w).2
  | Turn change => set_runtime (change (runtime w)) w
  end.

Definition run_calls (calls : list Call) (w : World) : World :=
  foldl (λ w call, run_call call w) w calls.

(** The identity [create_agency] works on: the one given, or the next one
    drawn. *)
Definition created_id (agency_id : option string) (w : World) : string :=
  if truthy agency_id then format_field agency_id else uuid4_hex (uuid_calls w).

(** The world once that identity is settled: a draw is counted when one
    was made. *)
Definition after_id (agency_id : option string) (w : World) : World :=
  if truthy agency_id then w else set_uuid_calls (S (uuid_calls w)) w.

(** Whether a call, started in [w], may remove or replace the cache entry
    at [key]: an eviction or a put on that key, a creation for that
    identity, or a reconciliation that moves an instance from or to it. *)
Definition displaces (key : string) (call : Call) (w : World) : bool :=
  match call with
  | CreateAgency agency_id => bool_decide (key = created_id agency_id w)
  | GetAgency _ _ => false
  | CacheAgency _ agency_id thread_id =>
      bool_decide (key = get_cache_key agency_id thread_id)
  | DeleteAgencyFromCache agency_id thread_id =>
      bool_decide (key = get_cache_key agency_id thread_id)
  | RefreshThreadId agency agency_id thread_id =>
      let new_thread_id := main_thread_id (runtime w) agency in
      bool_decide (thread_id ≠ new_thread_id)
      && (bool_decide (key = get_cache_key agency_id new_thread_id)
          || bool_decide (key = get_cache_key agency_id thread_id))
  | Turn _ => false
  end.

(** No call of the run displaces the entry at [key]. *)
Fixpoint undisturbed (key : string) (calls : list Call) (w : World) : bool :=
  match calls with
  | [] => true
  | call :: rest =>
      negb (displaces key call w) && undisturbed key rest (run_call call w)
  end.

End Operations.

(** ** Configurations without unknown tool names *)

(** The agent configuration with the tool names that are not in
    [TOOL_MAPPING] removed. *)
Definition known_tools_only (agent_conf : AgentConfig.t) : AgentConfig.t :=
  {| AgentConfig.id := AgentConfig.id agent_conf;
     AgentConfig.role := AgentConfig.role agent_conf;
     AgentConfig.description := AgentConfig.description agent_conf;
     AgentConfig.instructions := AgentConfig.instructions agent_conf;
     AgentConfig.files_folder := AgentConfig.files_folder agent_conf;
     AgentConfig.tools := filter (λ tool, in_TOOL_MAPPING tool = true)
                                 (AgentConfig.tools agent_conf) |}.

(** The agency configuration with those names removed from every agent. *)
Definition without_unknown_tools (config : AgencyConfig.t) : AgencyConfig.t :=
  {| AgencyConfig.agency_manifesto := AgencyConfig.agency_manifesto config;
     AgencyConfig.agents := known_tools_only <$> AgencyConfig.agents config;
     AgencyConfig.agency_chart := AgencyConfig.agency_chart config |}.

(** ** A small concrete environment

    Agencies are numbered in the order the runtime builds them; the
    runtime's state is the list of their current thread identifiers. The
    runtime rejects an empty chart. *)

Fixpoint tally (n : nat) : string :=
  match n with
  | 0 => ""
  | S n => "i" ++ tally n
  end.

#[local] Instance numbered : Environment := {|
  Agency := nat;
  Runtime := list (option string);
  Agency_new chart _ threads :=
    match chart with
    | [] => (inl (GraphConstructionError "empty chart"), threads)
    | _ => (inr (List.length threads), (threads ++ [None])%list)
    end;
  main_thread_id threads agency := mjoin (threads !! agency);
  Agency_agents _ _ := [];
  uuid4_hex n := "uuid-" ++ tally n;
  update_agent_ids_in_config config _ _ := config
|}.

Definition ceo : AgentConfig.t :=
  AgentConfig.mk None "ceo" "Chief" "Lead the agency." None
                 ["SearchWeb"; "Telepathy"; "Retrieval"].

Definition acme_config : AgencyConfig.t :=
  AgencyConfig.mk "Manifesto" [ceo] [Single "ceo"].

(** The chart of this one mentions a role, "cto", that no agent has. *)
Definition broken_config : AgencyConfig.t :=
  AgencyConfig.mk "Manifesto" [ceo] [Single "ceo"; Group ["ceo"; "cto"]].

(** The chart of this one is empty, which the runtime rejects. *)
Definition hollow_config : AgencyConfig.t :=
  AgencyConfig.mk "Manifesto" [ceo] [].

Definition fresh_world : World :=
  mkWorld ∅ false
    {[ "acme" := acme_config; "globex" := acme_config;
       "broken" := broken_config; "hollow" := hollow_config ]} [] 0.

(** Agency 0 is cached for "acme"; [threads] is what the runtime reports. *)
Definition acme_cached (threads : list (option string)) : World :=
  mkWorld {[ "acme" := 0 ]} false {[ "acme" := acme_config ]} threads 0.

(** ** Chart entries and what is built from them *)

(** How a chart entry and what is built from it correspond. *)
Definition entry_built (agents : gmap string Agent.t)
    (entry : ChartEntry string) (built : ChartEntry Agent.t) : Prop :=
  match entry, built with
  | Single role, Single agent => agents !! role = Some agent
  | Group roles, Group members =>
      Forall2 (λ role agent, agents !! role = Some agent) roles members
  | _, _ => False
  end.

(** ** Identities without a slash *)

(** Whether the character "/", which [get_cache_key] puts between the two
    identities, occurs in a string. *)
Fixpoint contains_slash (s : string) : bool :=
  match s with
  | EmptyString => false
  | String c rest => Ascii.eqb c "/"%char || contains_slash rest
  end.

(** ** The code summary tool

    [SummarizeCode.run] of nalgonda/custom_tools/summarize_code.py. A
    string is read as the sequence of its characters, [len] is its length
    and [output[:n]] its first [n] characters. *)

Definition newline : string := String "010"%char "".

Definition USER_PROMPT_PREFIX : string :=
  "Summarize the code of each file below." ++ newline ++ newline.

(** The text appended to an output that was cut. *)
Definition TRUNCATION_NOTE : string :=
  newline ++ newline
  ++ "... (truncated output, please use a smaller directory or apply a filter)".

Definition OUTPUT_LIMIT : Z := 20000.

Section SummarizeCodeTool.
(** [Path] is [pathlib.Path] and [Failure] what the two calls below may
    raise. [SYSTEM_MESSAGE] is the constant of that name and
    [gpt_cheap_model] is [settings.gpt_cheap_model].
    [PrintAllFilesInPath_run start_path file_extensions] is
    [PrintAllFilesInPath(start_path=..., file_extensions=...).run()] and
    [get_chat_completion user_prompt system_message model] the call of that
    function with [temperature=0.0]; both are outside the sources at
    hand. *)
Variables (Path Failure : Type).
Variable SYSTEM_MESSAGE : string.
Variable gpt_cheap_model : string.
Variable PrintAllFilesInPath_run : Path → gset string → Failure + string.
Variable get_chat_completion : string → string → string → Failure + string.

(** The fields of the tool. *)
Record SummarizeCodeArgs : Type := mkSummarizeCodeArgs {
  start_path : Path;
  file_extensions : gset string
}.

(** [SummarizeCode.run] *)
Definition SummarizeCode_run (self : SummarizeCodeArgs) : Failure + string :=
  match PrintAllFilesInPath_run (start_path self) (file_extensions self) with
  | inl e => inl e
  | inr full_code =>
      let user_prompt := USER_PROMPT_PREFIX ++ full_code in
      match get_chat_completion user_prompt SYSTEM_MESSAGE gpt_cheap_model with
      | inl e => inl e
      | inr output =>
          if (OUTPUT_LIMIT <? Z.of_nat (String.length output))%Z
          then inr (String.substring 0 (Z.to_nat OUTPUT_LIMIT) output ++ TRUNCATION_NOTE)
          else inr output
      end
  end.

End SummarizeCodeTool.

Arguments mkSummarizeCodeArgs {Path} start_path file_extensions.
Arguments start_path {Path} s.
Arguments file_extensions {Path} s.

(** A listing that fails for the empty path, a completion that answers
    with a short text and one that answers with [n] letters. *)
Definition listing_stub (path : string) (_ : gset string) : string + string :=
  if String.eqb path "" then inl "no such path" else inr "print(1)".

Definition short_completion (_ _ _ : string) : string + string :=
  inr "Summary of the code".

Definition failing_completion (_ _ _ : string) : string + string :=
  inl "API failed".

(** ** HTTP errors *)

(** [fastapi.HTTPException(status_code, detail, headers)] *)
Record HTTPException : Type := mkHTTPException {
  status_code : Z;
  detail : string;
  headers : option (list (string * string))
}.

#[global] Instance HTTPException_eq_dec : EqDecision HTTPException.
Proof. solve_decision. Defined.

(** ** Authentication dependencies

    nalgonda/dependencies/auth.py. The user model is declared outside the
    sources at hand; its fields here are the ones the dependencies read,
    with [disabled] and [is_superuser] as their truth values. *)
Module User.
Record t : Type := mk {
  id : string;
  disabled : bool;
  is_superuser : bool
}.
End User.

Definition double_quote : string := String "034"%char "".

Section Auth.
(** [Claims] is what [auth.verify_id_token] returns and [Failure] what it
    or the construction of the user may raise; [verify_id_token token] is
    the call with [check_revoked=True], [str_of] is [str(err)] and
    [User_of_claims] is the user that is then built from these claims. *)
Variables (Claims Failure : Type).
Variable verify_id_token : string → Failure + Claims.
Variable str_of : Failure → string.
Variable User_of_claims : Claims → Failure + User.t.

(** What a dependency raises: an [HTTPException], or something else that
    it lets through. *)
Inductive Raised : Type :=
  | RaisedHTTP (e : HTTPException)
  | RaisedOther (e : Failure).

(** [get_current_user]; the argument is [credentials.credentials]. *)
Definition get_current_user (credentials : string) : Raised + User.t :=
  match verify_id_token credentials with
  | inl err =>
      inl (RaisedHTTP
             (mkHTTPException 401
                ("Invalid authentication credentials. " ++ str_of err)
                (Some [("WWW-Authenticate",
                        "Bearer error=" ++ double_quote ++ "invalid_token"
                        ++ double_quote)])))
  | inr user =>
      match User_of_claims user with
      | inl e => inl (RaisedOther e)
      | inr u => inr u
      end
  end.

(** [get_current_active_user], given the user its dependency yields. *)
Definition get_current_active_user (current_user : User.t) : Raised + User.t :=
  if User.disabled current_user
  then inl (RaisedHTTP (mkHTTPException 400 "Inactive user" None))
  else inr current_user.

(** [get_current_superuser], given the user its dependency yields. *)
Definition get_current_superuser (current_user : User.t) : Raised + User.t :=
  if negb (User.is_superuser current_user)
  then inl (RaisedHTTP
              (mkHTTPException 403 "The user doesn't have enough privileges" None))
  else inr current_user.

(** A dependency is resolved after the one it depends on; an exception of
    the earlier one ends the resolution. *)
Definition depends {A B : Type} (dependency : Raised + A) (f : A → Raised + B)
    : Raised + B :=
  match dependency with
  | inl e => inl e
  | inr a => f a
  end.

(** [Depends(get_current_active_user)] for a request with these
    credentials. *)
Definition resolve_current_active_user (credentials : string) : Raised + User.t :=
  depends (get_current_user credentials) get_current_active_user.

(** [Depends(get_current_superuser)] for a request with these
    credentials. *)
Definition resolve_current_superuser (credentials : string) : Raised + User.t :=
  depends (resolve_current_active_user credentials) get_current_superuser.

End Auth.

Arguments RaisedHTTP {Failure} e.
Arguments RaisedOther {Failure} e.

(** ** Skill configurations, their storage and their routes

    backend/repositories/skill_config_firestore_storage.py and
    backend/routers/api/v1/skill.py. The model [SkillConfig] is declared
    outside the sources at hand: its fields here are the ones this code
    reads or writes, and [rest] stands for what else it carries, which
    this code never looks at. A stored document is the dump of a
    configuration and is read back as that configuration. *)
Module SkillConfig.
Record t : Type := mk {
  id : option string;
  user_id : option string;
  title : string;
  version : Z;
  approved : bool;
  timestamp : option string;
  rest : string
}.

Definition set_id (v : option string) (c : t) : t :=
  mk v (user_id c) (title c) (version c) (approved c) (timestamp c) (rest c).

Definition set_user_id (v : option string) (c : t) : t :=
  mk (id c) v (title c) (version c) (approved c) (timestamp c) (rest c).

Definition set_version (v : Z) (c : t) : t :=
  mk (id c) (user_id c) (title c) v (approved c) (timestamp c) (rest c).

Definition set_approved (v : bool) (c : t) : t :=
  mk (id c) (user_id c) (title c) (version c) v (timestamp c) (rest c).

Definition set_timestamp (v : option string) (c : t) : t :=
  mk (id c) (user_id c) (title c) (version c) (approved c) v (rest c).
End SkillConfig.

(** The request body of the execute route. *)
Record SkillExecutePostRequest : Type := mkSkillExecutePostRequest {
  request_id : string;
  user_prompt : string
}.

Section Skills.
(** The collection "skill_configs" is a finite map from document
    identifiers to documents. [auto_id db] is the identifier Firestore
    gives the document that [collection.add] creates, and [stream db] the
    documents of the collection in the order a query streams them.
    [storage_delete] is the method [delete] of the storage that the routes
    are given, which the storage class at hand does not have, and
    [SkillService_execute_skill title user_prompt] the call of the skill
    service, which may raise a [Failure]. *)
Variable auto_id : gmap string SkillConfig.t → string.
Variable stream : gmap string SkillConfig.t → list (string * SkillConfig.t).
Variable storage_delete : string → gmap string SkillConfig.t → gmap string SkillConfig.t.
Variable Failure : Type.
Variable SkillService_execute_skill : string → string → Failure + string.

(** [SkillConfigFirestoreStorage.load_by_user_id] *)
Definition load_by_user_id (user_id : option string)
    (db : gmap string SkillConfig.t) : list SkillConfig.t :=
  snd <$> filter (λ document, SkillConfig.user_id document.2 = user_id) (stream db).

(** [SkillConfigFirestoreStorage.load_by_id] *)
Definition load_by_id (id_ : string) (db : gmap string SkillConfig.t)
    : option SkillConfig.t :=
  db !! id_.

(** [SkillConfigFirestoreStorage.load_by_title]: [result[0] if result else
    None]. *)
Definition load_by_title (title : string) (db : gmap string SkillConfig.t)
    : option SkillConfig.t :=
  head (snd <$> filter (λ document, SkillConfig.title document.2 = title) (stream db)).

(** [SkillConfigFirestoreStorage.save]: a configuration without an
    identifier is first added as a new document, takes the identifier of
    that document and is then written again under it. *)
Definition save (skill_config : SkillConfig.t) (db : gmap string SkillConfig.t)
    : (string * Z) * gmap string SkillConfig.t :=
  match SkillConfig.id skill_config with
  | None =>
      let new_id := auto_id db in
      let db := <[new_id := skill_config]> db in
      let skill_config := SkillConfig.set_id (Some new_id) skill_config in
      ((new_id, SkillConfig.version skill_config), <[new_id := skill_config]> db)
  | Some id_ =>
      ((id_, SkillConfig.version skill_config), <[id_ := skill_config]> db)
  end.

(** A route: what it answers or raises, and the collection afterwards. *)
Definition Route (A : Type) : Type :=
  gmap string SkillConfig.t → (Raised Failure + A) * gmap string SkillConfig.t.

Definition http_error {A : Type} (status : Z) (message : string) : Raised Failure + A :=
  inl (RaisedHTTP (mkHTTPException status message None)).

Definition no_permission : string :=
  "You don't have permissions to access this skill".

(** [get_skill_list] *)
Definition get_skill_list (current_user : User.t) : Route (list SkillConfig.t) :=
  λ db, (inr (load_by_user_id (Some (User.id current_user)) db
              ++ load_by_user_id None db)%list, db).

(** [get_skill_config] *)
Definition get_skill_config (current_user : User.t) (id : string)
    : Route SkillConfig.t :=
  λ db,
    match load_by_id id db with
    | None => (http_error 404 "Skill not found", db)
    | Some config =>
        if truthy (SkillConfig.user_id config)
           && bool_decide (SkillConfig.user_id config ≠ Some (User.id current_user))
        then (http_error 403 no_permission, db)
        else (inr config, db)
    end.

(** The assignments of [create_skill_version] between the permission check
    and the call of [save]. *)
Definition new_version (current_user : User.t) (now : string)
    (skill_config_db : option SkillConfig.t) (config : SkillConfig.t)
    : SkillConfig.t :=
  let config := SkillConfig.set_user_id (Some (User.id current_user)) config in
  let config :=
    SkillConfig.set_version
      (match skill_config_db with
       | Some stored => (SkillConfig.version stored + 1)%Z
       | None => 1%Z
       end) config in
  let config := SkillConfig.set_approved false config in
  SkillConfig.set_timestamp (Some now) config.

(** [create_skill_version]; [now] is [datetime.now(UTC).isoformat()]. *)
Definition create_skill_version (current_user : User.t) (config : SkillConfig.t)
    (now : string) : Route (string * Z) :=
  λ db,
    let config :=
      if truthy (SkillConfig.user_id config) then config
      else SkillConfig.set_id None config in
    if truthy (SkillConfig.id config) then
      match load_by_id (format_field (SkillConfig.id config)) db with
      | None => (http_error 404 "Skill not found", db)
      | Some skill_config_db =>
          if bool_decide (SkillConfig.user_id skill_config_db
                          ≠ Some (User.id current_user))
          then (http_error 403 no_permission, db)
          else
            let (saved, db) :=
              save (new_version current_user now (Some skill_config_db) config) db in
            (inr saved, db)
      end
    else
      let (saved, db) := save (new_version current_user now None config) db in
      (inr saved, db).

(** [delete_skill] *)
Definition delete_skill (current_user : User.t) (id : string) : Route string :=
  λ db,
    match load_by_id id db with
    | None => (http_error 404 "Skill not found", db)
    | Some db_config =>
        if bool_decide (SkillConfig.user_id db_config ≠ Some (User.id current_user))
        then (http_error 403 no_permission, db)
        else (inr "Skill configuration deleted", storage_delete id db)
    end.

(** [approve_skill], given the superuser its dependency yields. *)
Definition approve_skill (current_superuser : User.t) (id : string) : Route string :=
  λ db,
    match load_by_id id db with
    | None => (http_error 404 "Skill not found", db)
    | Some config =>
        let (_, db) := save (SkillConfig.set_approved true config) db in
        (inr "Skill configuration approved", db)
    end.

(** [execute_skill] *)
Definition execute_skill (current_user : User.t) (request : SkillExecutePostRequest)
    : Route string :=
  λ db,
    match load_by_id (request_id request) db with
    | None => (http_error 404 "Skill not found", db)
    | Some config =>
        if truthy (SkillConfig.user_id config)
           && bool_decide (SkillConfig.user_id config ≠ Some (User.id current_user))
        then (http_error 403 no_permission, db)
        else if negb (SkillConfig.approved config)
        then (http_error 403 "Skill not approved", db)
        else
          match SkillService_execute_skill (SkillConfig.title config)
                                           (user_prompt request) with
          | inl e => (inl (RaisedOther e), db)
          | inr output => (inr output, db)
          end
    end.

End Skills.

(** Every document carries the identifier it is stored under. *)
Definition ids_consistent (db : gmap string SkillConfig.t) : Prop :=
  ∀ key config, db !! key = Some config → SkillConfig.id config = Some key.

(** ** The chat route of the assistant backend

    [chat] in [create_app] of backend/main.py. The OpenAI client, the
    module [functions] and [json.dumps] are outside the sources at hand:
    [Api] is the state behind the client, every call may raise a
    [Failure], and a call that returns also yields the state it leaves. *)

(** What [runs.retrieve] returns, as far as [chat] reads it: the status
    and [required_action.submit_tool_outputs.tool_calls]. *)
Record RunStatus (ToolCall : Type) : Type := mkRunStatus {
  status : string;
  tool_calls : list ToolCall
}.
Arguments mkRunStatus {ToolCall} status tool_calls.
Arguments status {ToolCall} r.
Arguments tool_calls {ToolCall} r.

(** How [chat] ends: with a JSON answer and its HTTP status, with an
    exception, or not within the number of polls looked at. *)
Inductive ChatOutcome (Failure : Type) : Type :=
  | Answer (code : Z) (field value : string)
  | ChatRaised (e : Failure)
  | StillPolling.
Arguments Answer {Failure} code field value.
Arguments ChatRaised {Failure} e.
Arguments StillPolling {Failure}.

Section Chat.
Variables (Api Failure ToolCall Output : Type).
(** [IndexError] of a subscript on an empty list. *)
Variable IndexError : Failure.
Variable assistant_id : string.
(** [client.beta.threads.messages.create(thread_id=..., role="user",
    content=...)] *)
Variable messages_create : string → string → Api → Failure + Api.
(** [client.beta.threads.runs.create(thread_id=..., assistant_id=...)],
    with [run.id] as its result *)
Variable runs_create : string → string → Api → Failure + (string * Api).
(** [client.beta.threads.runs.retrieve(thread_id=..., run_id=...)] *)
Variable runs_retrieve : string → string → Api → Failure + (RunStatus ToolCall * Api).
(** [functions.handle_action(tool_call, thread_id, run.id)] *)
Variable handle_action : ToolCall → string → string → Api → Failure + (Output * Api).
Variable tool_call_id : ToolCall → string.
Variable json_dumps : Output → Failure + string.
(** [client.beta.threads.runs.submit_tool_outputs(thread_id=...,
    run_id=..., tool_outputs=[...])], each output a pair of the tool call's
    id and the text *)
Variable submit_tool_outputs :
  string → string → list (string * string) → Api → Failure + Api.
(** [client.beta.threads.messages.list(thread_id=...)]: for each message in
    [data], the [text.value] of each element of its [content] *)
Variable messages_list : string → Api → Failure + (list (list string) * Api).

(** The [for] loop over the tool calls of a run that requires action. *)
Fixpoint submit_all (calls : list ToolCall) (thread_id run_id : string) (api : Api)
    : Failure + Api :=
  match calls with
  | [] => inr api
  | tool_call :: rest =>
      match handle_action tool_call thread_id run_id api with
      | inl e => inl e
      | inr (output, api) =>
          match json_dumps output with
          | inl e => inl e
          | inr text =>
              match submit_tool_outputs thread_id run_id
                      [(tool_call_id tool_call, text)] api with
              | inl e => inl e
              | inr api => submit_all rest thread_id run_id api
              end
          end
      end
  end.

(** The [while True] loop, for at most [polls] calls of [runs.retrieve]:
    the state in which it was left by [break], an exception, or [None]
    when it is still going round. *)
Fixpoint poll (polls : nat) (thread_id run_id : string) (api : Api)
    : option (Failure + Api) :=
  match polls with
  | 0 => None
  | S polls =>
      match runs_retrieve thread_id run_id api with
      | inl e => Some (inl e)
      | inr (run_status, api) =>
          if String.eqb (status run_status) "completed" then Some (inr api)
          else if String.eqb (status run_status) "requires_action" then
            match submit_all (tool_calls run_status) thread_id run_id api with
            | inl e => Some (inl e)
            | inr api => poll polls thread_id run_id api
            end
          else poll polls thread_id run_id api
      end
  end.

(** [chat]; [thread_id] is [data.get("thread_id")] and [user_input] is
    [data.get("message", "")]. *)
Definition chat (polls : nat) (thread_id : option string) (user_input : string)
    (api : Api) : ChatOutcome Failure * Api :=
  if negb (truthy thread_id) then (Answer 400 "error" "Missing thread_id", api)
  else
    let thread_id := format_field thread_id in
    match messages_create thread_id user_input api with
    | inl e => (ChatRaised e, api)
    | inr api1 =>
        match runs_create thread_id assistant_id api1 with
        | inl e => (ChatRaised e, api1)
        | inr (run_id, api2) =>
            match poll polls thread_id run_id api2 with
            | None => (StillPolling, api2)
            | Some (inl e) => (ChatRaised e, api2)
            | Some (inr api3) =>
                match messages_list thread_id api3 with
                | inl e => (ChatRaised e, api3)
                | inr (data, api4) =>
                    match data with
                    | [] => (ChatRaised IndexError, api4)
                    | content :: _ =>
                        match content with
                        | [] => (ChatRaised IndexError, api4)
                        | value :: _ => (Answer 200 "response" value, api4)
                        end
                    end
                end
            end
        end
    end.

End Chat.


Definition retrieve_failed (_ _ : string) (api : nat)
    : string + (RunStatus string * nat) :=
  inr (mkRunStatus "failed" [], S api).

Definition chat_stub (retrieve : string → string → nat → string + (RunStatus string * nat))
    (polls : nat) (thread_id : option string) (user_input : string) (api : nat)
    : ChatOutcome string * nat :=
  chat nat string string string "IndexError" "asst_1"
    (λ _ _ api, inr api) (λ _ _ api, inr ("run_1", api)) retrieve
    (λ _ _ _ api, inr ("done", api)) id (λ output, inr output)
    (λ _ _ _ api, inr api) (λ _ api, inr ([["Hello"]], api))
    polls thread_id user_input api.

(** A collection with a skill of alice, a common one and a skill of bob,
    and stand-ins for Firestore's new identifiers, the order of a query,
    the deletion and the skill service. *)
Definition alice : User.t := User.mk "alice" false false.

Definition bob : User.t := User.mk "bob" false false.

Definition skill_of (id : string) (user : option string) (v : Z) (ok : bool)
    : SkillConfig.t :=
  SkillConfig.mk (Some id) user ("title " ++ id) v ok None "def run(): pass".

Definition skills_db : gmap string SkillConfig.t :=
  {[ "s1" := skill_of "s1" (Some "alice") 3 true;
     "s2" := skill_of "s2" None 1 true;
     "s3" := skill_of "s3" (Some "bob") 2 false ]}.

Definition auto_id_stub (db : gmap string SkillConfig.t) : string :=
  "doc-" ++ tally (size db).

Definition service_stub (title prompt : string) : string + string :=
  if String.eqb prompt "" then inl "empty prompt" else inr (title ++ ": " ++ prompt).

(** A verification that rejects the empty token and otherwise yields the
    length of the token as its claims; users that are disabled for claims
    1 and superusers for claims above 2. *)
Definition verify_stub (token : string) : string + nat :=
  if String.eqb token "" then inl "empty token" else inr (String.length token).

Definition user_stub (claims : nat) : string + User.t :=
  inr (User.mk "u1" (Nat.eqb claims 1) (Nat.ltb 2 claims)).

(** * Properties *)

(** ** The cache key *)

Example get_cache_key_thread :
  get_cache_key "acme" (Some "th1") = "acme/th1".
Proof. reflexivity. Qed.

Example get_cache_key_no_thread : get_cache_key "acme" None = "acme".
Proof. reflexivity. Qed.

Lemma truthy_Some (s : string) : truthy (Some s) = true ↔ s ≠ "".
Proof.
  unfold truthy. destruct (String.eqb_spec s ""); simpl; split; congruence.
Qed.

Lemma truthy_false (t : option string) :
  truthy t = false ↔ t = None ∨ t = Some "".
Proof.
  destruct t as [s|]; simpl.
  - destruct (String.eqb_spec s ""); simpl; split; intros; subst;
      try tauto; try congruence.
    destruct H as [?|?]; congruence.
  - tauto.
Qed.

Lemma get_cache_key_truthy (a s : string) :
  s ≠ "" → get_cache_key a (Some s) = a ++ "/" ++ s.
Proof.
  intros Hs. unfold get_cache_key.
  by rewrite (proj2 (truthy_Some s) Hs).
Qed.

Lemma get_cache_key_falsy (a : string) (t : option string) :
  truthy t = false → get_cache_key a t = a.
Proof. intros Ht. unfold get_cache_key. by rewrite Ht. Qed.

Lemma append_empty_r (a : string) : a ++ "" = a.
Proof. induction a as [|c a IH]; [done|]. by rewrite <- IH at 2. Qed.

Lemma append_self_inv (a s : string) : a ++ s = a → s = "".
Proof.
  intros H. rewrite <- (append_empty_r a) in H at 2.
  by apply (inj (String.app a)) in H.
Qed.

(** A key with a thread part is never the bare agency identity. *)
Lemma get_cache_key_truthy_ne (a s : string) (t : option string) :
  s ≠ "" → truthy t = false → get_cache_key a (Some s) ≠ get_cache_key a t.
Proof.
  intros Hs Ht. rewrite get_cache_key_truthy, (get_cache_key_falsy a t) by done.
  intros H%append_self_inv. discriminate H.
Qed.

(** Two thread identities give one key exactly when they are equal or
    both falsy. *)
Lemma get_cache_key_eq_iff (a : string) (t1 t2 : option string) :
  get_cache_key a t1 = get_cache_key a t2
  ↔ t1 = t2 ∨ (truthy t1 = false ∧ truthy t2 = false).
Proof.
  split.
  - intros H.
    destruct (truthy t1) eqn:H1, (truthy t2) eqn:H2; [| | |by right].
    + left. destruct t1 as [s1|], t2 as [s2|]; try discriminate.
      apply truthy_Some in H1, H2.
      rewrite !get_cache_key_truthy in H by done.
      apply (inj (String.app a)) in H. apply (inj (String.app "/")) in H.
      by subst.
    + destruct t1 as [s1|]; [|discriminate]. apply truthy_Some in H1.
      by destruct (get_cache_key_truthy_ne a s1 t2).
    + destruct t2 as [s2|]; [|discriminate]. apply truthy_Some in H2.
      by destruct (get_cache_key_truthy_ne a s2 t1).
  - intros [->|[H1 H2]]; [done|].
    by rewrite !get_cache_key_falsy.
Qed.

(** C4, amended: for every agency identity [a], the key of a thread
    identity that is present and not the empty string is the agency
    identity, a slash and the thread identity; the key of an absent thread
    identity is the agency identity. *)
Theorem get_cache_key_spec (a : string) :
  (∀ t : string, t ≠ "" → get_cache_key a (Some t) = a ++ "/" ++ t)
  ∧ get_cache_key a None = a.
Proof. split; [apply get_cache_key_truthy | reflexivity]. Qed.

Lemma get_cache_key_spec_witness :
  "th1" ≠ "" ∧ get_cache_key "acme" (Some "th1") = "acme" ++ "/" ++ "th1".
Proof.
  split; [discriminate|].
  apply (proj1 (get_cache_key_spec "acme") "th1"). discriminate.
Defined.

(** C4 as stated fails: the empty string is a thread identity that is
    present, and its key is the bare agency identity, not "acme/". *)
Lemma get_cache_key_present_counterexample :
  get_cache_key "acme" (Some "") ≠ "acme" ++ "/" ++ "".
Proof. discriminate. Qed.

(** C9: the key is a function of its arguments, and for one agency
    identity two thread identities that are present and differ give
    different keys. *)
Theorem get_cache_key_deterministic_and_separating :
  (∀ (a : string) (t : option string), get_cache_key a t = get_cache_key a t)
  ∧ (∀ a t1 t2 : string,
       t1 ≠ t2 → get_cache_key a (Some t1) ≠ get_cache_key a (Some t2)).
Proof.
  split; [done|].
  intros a t1 t2 Hne [H|[H1 H2]]%get_cache_key_eq_iff.
  - congruence.
  - apply truthy_false in H1 as [?|?], H2 as [?|?]; congruence.
Qed.

Lemma get_cache_key_separating_witness :
  "th1" ≠ "th2" ∧ get_cache_key "acme" (Some "th1") ≠ get_cache_key "acme" (Some "th2").
Proof.
  split; [discriminate|].
  apply (proj2 get_cache_key_deterministic_and_separating "acme" "th1" "th2").
  discriminate.
Defined.

(** ** The cache operations *)

Ltac unfold_task :=
  unfold mbind, Task_bind, bind, mret, Task_ret, ret, raise, read, modify,
    lift, to_thread in *.

Section ManagerFacts.
Context `{Env : Environment}.

Lemma unlock_lock (w : World) :
  locked w = false → set_locked false (set_locked true w) = w.
Proof. destruct w; simpl; intros ->; reflexivity. Qed.

Lemma unlock_set_cache_lock (c : gmap string Agency) (w : World) :
  locked w = false →
  set_locked false (set_cache c (set_locked true w)) = set_cache c w.
Proof. destruct w; simpl; intros ->; reflexivity. Qed.

(** With the lock free, [get_agency] is the lookup at the derived key and
    changes nothing. *)
Lemma get_agency_free (a : string) (t : option string) (w : World) :
  locked w = false →
  get_agency a t w = (Return (cache w !! get_cache_key a t), w).
Proof.
  intros Hw. unfold get_agency, async_with_lock. unfold_task.
  rewrite Hw. simpl. by rewrite unlock_lock.
Qed.

Lemma cache_agency_free (i : Agency) (a : string) (t : option string) (w : World) :
  locked w = false →
  cache_agency i a t w
  = (Return (), set_cache (<[get_cache_key a t := i]> (cache w)) w).
Proof.
  intros Hw. unfold cache_agency, async_with_lock. unfold_task.
  rewrite Hw. simpl. by rewrite unlock_set_cache_lock.
Qed.

Lemma delete_agency_from_cache_free (a : string) (t : option string) (w : World) :
  locked w = false →
  delete_agency_from_cache a t w
  = (Return (), set_cache (delete (get_cache_key a t) (cache w)) w).
Proof.
  intros Hw. unfold delete_agency_from_cache, async_with_lock. unfold_task.
  rewrite Hw. simpl. by rewrite unlock_set_cache_lock.
Qed.

(** With the lock free, [refresh_thread_id] either leaves everything as it
    is, or stores the instance under the new key and then pops the old
    one. *)
Lemma refresh_thread_id_free (i : Agency) (a : string) (t : option string) (w : World) :
  locked w = false →
  refresh_thread_id i a t w
  = let t2 := main_thread_id (runtime w) i in
    if bool_decide (t ≠ t2)
    then (Return t2,
          set_cache (delete (get_cache_key a t)
                            (<[get_cache_key a t2 := i]> (cache w))) w)
    else (Return None, w).
Proof.
  intros Hw. unfold refresh_thread_id. unfold_task. simpl.
  case_bool_decide; [|done].
  rewrite cache_agency_free by done.
  rewrite delete_agency_from_cache_free by done.
  by destruct w.
Qed.

(** C10: the empty string as a thread identity is treated as an absent one:
    its key is the agency identity, [get_agency], [cache_agency] and
    [delete_agency_from_cache] called with it are the calls with [None],
    and with the lock free they read, overwrite and remove the entry at the
    agency identity. *)
Theorem empty_thread_id_is_absent (a : string) (i : Agency) (w : World) :
  get_cache_key a (Some "") = a
  ∧ get_agency a (Some "") w = get_agency a None w
  ∧ cache_agency i a (Some "") w = cache_agency i a None w
  ∧ delete_agency_from_cache a (Some "") w = delete_agency_from_cache a None w
  ∧ (locked w = false →
       get_agency a (Some "") w = (Return (cache w !! a), w)
       ∧ cache_agency i a (Some "") w
         = (Return (), set_cache (<[a := i]> (cache w)) w)
       ∧ delete_agency_from_cache a (Some "") w
         = (Return (), set_cache (delete a (cache w)) w)).
Proof.
  repeat split.
  - by rewrite get_agency_free.
  - by rewrite cache_agency_free.
  - by rewrite delete_agency_from_cache_free.
Qed.

(** ** Reconciling the thread identity *)

(** C1, amended: let instance [i] be cached under the key of [(a, t)] and
    let the runtime report [t2] for it. If [t2] differs from [t] and the
    keys of [(a, t2)] and [(a, t)] differ, [refresh_thread_id] returns
    [t2], and afterwards [get_agency a t2] returns [i] and [get_agency a t]
    returns nothing. If [t2] equals [t] it returns [None] and changes
    nothing. *)
Theorem refresh_thread_id_moves_entry
    (w : World) (i : Agency) (a : string) (t t2 : option string) :
  locked w = false →
  cache w !! get_cache_key a t = Some i →
  main_thread_id (runtime w) i = t2 →
  (t2 ≠ t → get_cache_key a t2 ≠ get_cache_key a t →
     (refresh_thread_id i a t w).1 = Return t2
     ∧ (get_agency a t2 (refresh_thread_id i a t w).2).1 = Return (Some i)
     ∧ (get_agency a t (refresh_thread_id i a t w).2).1 = Return None)
  ∧ (t2 = t → refresh_thread_id i a t w = (Return None, w)).
Proof.
  intros Hw _ Ht2. rewrite refresh_thread_id_free by done. simpl.
  rewrite Ht2. split.
  - intros Hne Hkey. rewrite bool_decide_true by congruence. simpl.
    rewrite !get_agency_free by done. simpl.
    rewrite lookup_delete_ne, lookup_insert_eq, lookup_delete_eq by congruence.
    done.
  - intros ->. by rewrite bool_decide_false by (intros ?; congruence).
Qed.

(** When the two keys differ, or the identity did not change, the instance
    stays reachable under one of them. *)
Lemma refresh_thread_id_keeps_reachable
    (w : World) (i : Agency) (a : string) (t : option string) :
  let t2 := main_thread_id (runtime w) i in
  locked w = false →
  cache w !! get_cache_key a t = Some i →
  t2 = t ∨ get_cache_key a t2 ≠ get_cache_key a t →
  let w' := (refresh_thread_id i a t w).2 in
  cache w' !! get_cache_key a t = Some i
  ∨ cache w' !! get_cache_key a t2 = Some i.
Proof.
  intros t2 Hw Hi Hcase w'. subst w'.
  rewrite refresh_thread_id_free by done. simpl. fold t2.
  case_bool_decide as Hd; simpl; [|by left].
  destruct Hcase as [?|Hkey]; [congruence|].
  right. by rewrite lookup_delete_ne, lookup_insert_eq by congruence.
Qed.

(** When the identity changed but the key did not (one of the two is
    absent and the other is the empty string), the instance is gone. *)
Lemma refresh_thread_id_same_key_drops
    (w : World) (i : Agency) (a : string) (t : option string) :
  let t2 := main_thread_id (runtime w) i in
  locked w = false →
  t2 ≠ t →
  get_cache_key a t2 = get_cache_key a t →
  cache (refresh_thread_id i a t w).2 !! get_cache_key a t = None.
Proof.
  intros t2 Hw Hne Hkey.
  rewrite refresh_thread_id_free by done. simpl. fold t2.
  rewrite bool_decide_true by congruence. simpl.
  apply lookup_delete_eq.
Qed.

End ManagerFacts.

Lemma empty_thread_id_is_absent_witness :
  get_agency "acme" (Some "") (acme_cached []) = (Return (Some 0), acme_cached [])
  ∧ cache_agency 1 "acme" (Some "") (acme_cached [])
    = (Return (), set_cache (<["acme" := 1]> (cache (acme_cached [])))
                            (acme_cached []))
  ∧ delete_agency_from_cache "acme" (Some "") (acme_cached [])
    = (Return (), set_cache (delete "acme" (cache (acme_cached [])))
                            (acme_cached [])).
Proof.
  destruct (empty_thread_id_is_absent (Env := numbered) "acme" 1 (acme_cached []))
    as (_ & _ & _ & _ & Hfree).
  destruct (Hfree eq_refl) as (Hget & Hput & Hpop).
  split; [|split].
  - rewrite Hget. vm_compute. reflexivity.
  - exact Hput.
  - exact Hpop.
Defined.

Lemma refresh_thread_id_moves_entry_witness :
  ((refresh_thread_id 0 "acme" None (acme_cached [Some "th1"])).1
   = Return (Some "th1")
   ∧ (get_agency "acme" (Some "th1")
        (refresh_thread_id 0 "acme" None (acme_cached [Some "th1"])).2).1
     = Return (Some 0)
   ∧ (get_agency "acme" None
        (refresh_thread_id 0 "acme" None (acme_cached [Some "th1"])).2).1
     = Return None)
  ∧ refresh_thread_id 0 "acme" None (acme_cached [None])
    = (Return None, acme_cached [None]).
Proof.
  split.
  - apply (proj1 (refresh_thread_id_moves_entry
                    (acme_cached [Some "th1"]) 0 "acme" None (Some "th1")
                    eq_refl eq_refl eq_refl)).
    + discriminate.
    + discriminate.
  - apply (proj2 (refresh_thread_id_moves_entry
                    (acme_cached [None]) 0 "acme" None None
                    eq_refl eq_refl eq_refl)).
    reflexivity.
Defined.

(** C1 as stated fails: agency 0 is cached for "acme", the caller passes
    the empty string as the thread identity it knows and the runtime
    reports no thread, which differs from the empty string; the instance
    is stored under "acme" and popped from "acme" again, and [get_agency]
    with the reported identity finds nothing. *)
Lemma refresh_thread_id_counterexample :
  let w := acme_cached [None] in
  cache w !! get_cache_key "acme" (Some "") = Some 0
  ∧ main_thread_id (runtime w) 0 = None
  ∧ (None : option string) ≠ Some ""
  ∧ (refresh_thread_id 0 "acme" (Some "") w).1 = Return None
  ∧ (get_agency "acme" None (refresh_thread_id 0 "acme" (Some "") w).2).1
    ≠ Return (Some 0).
Proof. vm_compute. repeat split; discriminate. Qed.

(** C2 at the failing input: agency 0 is cached for "acme", the caller
    passes the empty string as the thread identity it knows and the runtime
    reports no thread yet. [refresh_thread_id] returns [None] and the
    instance, reachable under the key "acme" of both identities before, is
    reachable under neither afterwards. *)
Theorem refresh_thread_id_loses_instance :
  let w := acme_cached [None] in
  let w' := (refresh_thread_id 0 "acme" (Some "") w).2 in
  cache w !! get_cache_key "acme" (Some "") = Some 0
  ∧ main_thread_id (runtime w) 0 = None
  ∧ (refresh_thread_id 0 "acme" (Some "") w).1 = Return None
  ∧ cache w' !! get_cache_key "acme" (Some "") = None
  ∧ cache w' !! get_cache_key "acme" None = None.
Proof. vm_compute. repeat split. Qed.

(** ** The agent factory *)

Example resolve_tools_drops_unknown :
  resolve_tools ["SearchWeb"; "Telepathy"; "Retrieval"] = [SearchWeb; Retrieval].
Proof. vm_compute. reflexivity. Qed.

Lemma build_agents_acc_None (a : string) (confs : list AgentConfig.t)
    (d : gmap string Agent.t) (role : string) :
  foldl (λ d agent_conf,
           <[AgentConfig.role agent_conf := build_agent a agent_conf]> d)
        d confs !! role = None
  ↔ d !! role = None ∧ role ∉ (AgentConfig.role <$> confs).
Proof.
  revert d. induction confs as [|conf confs IH]; intros d; simpl.
  - split; [intros ?; split; [done|apply not_elem_of_nil]|by intros [? _]].
  - rewrite IH, not_elem_of_cons, lookup_insert_None. intuition congruence.
Qed.

(** The dictionary of agents has exactly the declared roles as keys. *)
Lemma build_agents_None (a : string) (config : AgencyConfig.t) (role : string) :
  build_agents a (AgencyConfig.agents config) !! role = None
  ↔ role ∉ declared_roles config.
Proof.
  unfold build_agents, declared_roles. rewrite build_agents_acc_None.
  rewrite lookup_empty. tauto.
Qed.

Lemma build_agents_acc_Some (a : string) (confs : list AgentConfig.t)
    (d : gmap string Agent.t) (role : string) (agent : Agent.t) :
  foldl (λ d agent_conf,
           <[AgentConfig.role agent_conf := build_agent a agent_conf]> d)
        d confs !! role = Some agent →
  d !! role = Some agent
  ∨ ∃ conf, conf ∈ confs ∧ AgentConfig.role conf = role
            ∧ agent = build_agent a conf.
Proof.
  revert d. induction confs as [|conf confs IH]; intros d; simpl; [by left|].
  intros [Hd|(c & Hc & Hrole & Hagent)]%IH.
  - apply lookup_insert_Some in Hd as [[<- <-]|[_ Hd]]; [|by left].
    right. exists conf. split; [apply list_elem_of_here|done].
  - right. exists c. split; [by apply list_elem_of_further|done].
Qed.

(** Every agent of the dictionary was built from an agent configuration of
    its role. *)
Lemma build_agents_Some (a : string) (confs : list AgentConfig.t)
    (role : string) (agent : Agent.t) :
  build_agents a confs !! role = Some agent →
  ∃ conf, conf ∈ confs ∧ AgentConfig.role conf = role
          ∧ agent = build_agent a conf.
Proof.
  intros [H|H]%build_agents_acc_Some; [|done]. by rewrite lookup_empty in H.
Qed.

Lemma find_pointwise {A : Type} (p q : A → bool) (l : list A) :
  (∀ x, p x = q x) → find p l = find q l.
Proof. intros Hpq. induction l as [|x l IH]; simpl; [done|]. by rewrite Hpq, IH. Qed.

Lemma find_app_first {A : Type} (p : A → bool) (l1 l2 : list A) :
  find p (l1 ++ l2)%list
  = match find p l1 with Some x => Some x | None => find p l2 end.
Proof. induction l1 as [|x l1 IH]; simpl; [done|]. by destruct (p x). Qed.

(** The list of subscripts fails at the first missing role, with a
    [KeyError] that carries it. *)
Lemma subscript_all_find (agents : gmap string Agent.t) (roles : list string) :
  match find (λ role, bool_decide (agents !! role = None)) roles with
  | Some role => subscript_all agents roles = inl (KeyError role)
  | None => ∃ l, subscript_all agents roles = inr l
  end.
Proof.
  induction roles as [|role roles IH]; simpl; [by eexists|].
  unfold subscript. case_bool_decide as Hrole.
  - by rewrite Hrole.
  - destruct (agents !! role) as [agent|]; [|done]. simpl.
    destruct (find _ roles).
    + by rewrite IH.
    + destruct IH as [l ->]. by eexists.
Qed.

Lemma build_chart_find (agents : gmap string Agent.t)
    (charts : list (ChartEntry string)) :
  match find (λ role, bool_decide (agents !! role = None))
             (concat (entry_roles <$> charts)) with
  | Some role => build_chart agents charts = inl (KeyError role)
  | None => ∃ l, build_chart agents charts = inr l
  end.
Proof.
  induction charts as [|chart charts IH]; simpl; [by eexists|].
  rewrite find_app_first.
  assert (match find (λ role, bool_decide (agents !! role = None))
                     (entry_roles chart) with
          | Some role => build_chart_entry agents chart = inl (KeyError role)
          | None => ∃ e, build_chart_entry agents chart = inr e
          end) as Hentry.
  { destruct chart as [role|roles]; simpl.
    - unfold subscript. case_bool_decide as Hrole; [by rewrite Hrole|].
      destruct (agents !! role); [by eexists|done].
    - pose proof (subscript_all_find agents roles) as H.
      destruct (find _ roles); [by rewrite H|].
      destruct H as [l ->]. by eexists. }
  destruct (find _ (entry_roles chart)); [by rewrite Hentry|].
  destruct Hentry as [e ->]. simpl.
  destruct (find _ (concat _)).
  - by rewrite IH.
  - destruct IH as [l ->]. by eexists.
Qed.

(** The chart of a configuration is built exactly when no role of it is
    undeclared; otherwise the first undeclared role is the [KeyError]. *)
Lemma build_chart_config (a : string) (config : AgencyConfig.t) :
  match undeclared_role config with
  | Some role =>
      build_chart (build_agents a (AgencyConfig.agents config))
                  (AgencyConfig.agency_chart config) = inl (KeyError role)
  | None =>
      ∃ l, build_chart (build_agents a (AgencyConfig.agents config))
                       (AgencyConfig.agency_chart config) = inr l
  end.
Proof.
  pose proof (build_chart_find (build_agents a (AgencyConfig.agents config))
                (AgencyConfig.agency_chart config)) as H.
  unfold undeclared_role, chart_roles.
  erewrite find_pointwise; [exact H|].
  intros role. simpl. apply bool_decide_ext. symmetry. apply build_agents_None.
Qed.

Lemma undeclared_role_Some (config : AgencyConfig.t) (role : string) :
  undeclared_role config = Some role →
  role ∈ chart_roles config ∧ role ∉ declared_roles config.
Proof.
  intros [Hin Hp]%find_some. split.
  - by apply list_elem_of_In.
  - by apply bool_decide_eq_true in Hp.
Qed.

Lemma undeclared_role_exists (config : AgencyConfig.t) (role : string) :
  role ∈ chart_roles config → role ∉ declared_roles config →
  ∃ first, undeclared_role config = Some first.
Proof.
  intros Hin Hout. unfold undeclared_role.
  destruct (find _ _) as [first|] eqn:Hfind; [by eexists|].
  apply list_elem_of_In in Hin.
  pose proof (find_none _ _ Hfind role Hin) as Hp. simpl in Hp.
  by apply bool_decide_eq_false in Hp.
Qed.

Section FactoryFacts.
Context `{Env : Environment}.

(** [load_agency_from_config], step by step: the load, the chart, the call
    into the runtime, and the configuration written back. *)
Lemma load_agency_from_config_eq (a : string) (w : World) :
  load_agency_from_config a w
  = match store w !! a with
    | None => (Raise (ConfigurationNotFound a), w)
    | Some config =>
        match build_chart (build_agents a (AgencyConfig.agents config))
                          (AgencyConfig.agency_chart config) with
        | inl e => (Raise e, w)
        | inr chart =>
            match Agency_new chart (AgencyConfig.agency_manifesto config)
                             (runtime w) with
            | (inl e, r) => (Raise e, set_runtime r w)
            | (inr agency, r) =>
                (Return agency,
                 set_store
                   (<[a := update_agent_ids_in_config config a
                             (Agency_agents r agency)]> (store w))
                   (set_runtime r w))
            end
        end
    end.
Proof.
  unfold load_agency_from_config, AgencyConfig_load, AgencyConfig_save,
    Agency_call.
  unfold_task. simpl.
  destruct (store w !! a) as [config|]; [|done].
  destruct (build_chart _ _) as [e|chart]; [done|]. simpl.
  by destruct (Agency_new _ _ _) as [[e|agency] r].
Qed.

(** The factory never waits on the lock and touches neither the cache, nor
    the lock, nor the count of identifiers drawn. *)
Lemma load_agency_from_config_frame (a : string) (w : World) :
  (load_agency_from_config a w).1 ≠ Blocked
  ∧ cache (load_agency_from_config a w).2 = cache w
  ∧ locked (load_agency_from_config a w).2 = locked w
  ∧ uuid_calls (load_agency_from_config a w).2 = uuid_calls w.
Proof.
  rewrite load_agency_from_config_eq.
  destruct (store w !! a) as [config|]; [|done].
  destruct (build_chart _ _) as [e|chart]; [done|].
  by destruct (Agency_new _ _ _) as [[e|agency] r].
Qed.

(** [agency_id or uuid.uuid4().hex] always yields an identity. *)
Lemma agency_id_or_uuid_eq (req : option string) (w : World) :
  agency_id_or_uuid req w = (Return (created_id req w), after_id req w).
Proof.
  unfold agency_id_or_uuid, created_id, after_id.
  destruct req as [given|]; [|done].
  by destruct (truthy (Some given)).
Qed.

Lemma created_id_given (a : string) (w : World) :
  a ≠ "" → created_id (Some a) w = a ∧ after_id (Some a) w = w.
Proof.
  intros Ha%truthy_Some. unfold created_id, after_id. by rewrite Ha.
Qed.

Lemma after_id_frame (req : option string) (w : World) :
  cache (after_id req w) = cache w
  ∧ locked (after_id req w) = locked w
  ∧ store (after_id req w) = store w
  ∧ runtime (after_id req w) = runtime w.
Proof. unfold after_id. by destruct (truthy req). Qed.

(** [create_agency] with the lock free: the factory runs under the lock on
    the identity settled first; its result is stored under that identity,
    its exception passes through, and the lock is released either way. *)
Lemma create_agency_eq (req : option string) (w : World) :
  locked w = false →
  create_agency req w
  = let a := created_id req w in
    match load_agency_from_config a (set_locked true (after_id req w)) with
    | (Return i, w1) =>
        (Return (i, a), set_locked false (set_cache (<[a := i]> (cache w1)) w1))
    | (Raise e, w1) => (Raise e, set_locked false w1)
    | (Blocked, w1) => (Blocked, w1)
    end.
Proof.
  intros Hw. unfold create_agency.
  unfold mbind at 1. unfold Task_bind, bind.
  rewrite agency_id_or_uuid_eq. unfold async_with_lock.
  destruct (after_id_frame req w) as (_ & -> & _). rewrite Hw.
  unfold_task. simpl.
  by destruct (load_agency_from_config _ _) as [[i|e|] w1].
Qed.

(** The lock plays no part in what the factory does. *)
Lemma load_agency_from_config_set_locked (a : string) (b : bool) (w : World) :
  load_agency_from_config a (set_locked b w)
  = ((load_agency_from_config a w).1,
     set_locked b (load_agency_from_config a w).2).
Proof.
  rewrite !load_agency_from_config_eq. simpl.
  destruct (store w !! a) as [config|]; [|done].
  destruct (build_chart _ _) as [e|chart]; [done|].
  by destruct (Agency_new _ _ _) as [[e|agency] r].
Qed.

(** ** Creating an agency *)

(** C3, amended: when the chart of the configuration references a role
    that is not declared among its agents, [create_agency] fails with the
    [KeyError] of the first such role in chart order, raised by the
    factory's own subscript before the runtime is called; the error
    reaches the caller, nothing is cached and the lock is released. *)
Theorem create_agency_undeclared_role
    (req : option string) (w : World) (config : AgencyConfig.t) (role : string) :
  locked w = false →
  store w !! created_id req w = Some config →
  role ∈ chart_roles config →
  role ∉ declared_roles config →
  ∃ first,
    undeclared_role config = Some first
    ∧ first ∈ chart_roles config
    ∧ (first ∉ declared_roles config)
    ∧ create_agency req w = (Raise (KeyError first), after_id req w).
Proof.
  intros Hw Hconfig Hin Hout.
  destruct (undeclared_role_exists config role Hin Hout) as [first Hfirst].
  exists first. destruct (undeclared_role_Some config first Hfirst) as [? ?].
  repeat split; try done.
  destruct (after_id_frame req w) as (_ & Hlock & Hstore & _).
  rewrite create_agency_eq by done. simpl.
  rewrite load_agency_from_config_set_locked, load_agency_from_config_eq.
  rewrite Hstore, Hconfig.
  pose proof (build_chart_config (created_id req w) config) as Hchart.
  rewrite Hfirst in Hchart. rewrite Hchart. simpl.
  rewrite unlock_lock; [done|]. by rewrite Hlock.
Qed.

(** C5: when the factory raises an error during [create_agency], that very
    error is the outcome of [create_agency], the cache is as it was before
    the call and the lock is released. *)
Theorem create_agency_failure_propagates
    (req : option string) (w : World) (e : Exception) :
  locked w = false →
  (load_agency_from_config (created_id req w)
     (set_locked true (after_id req w))).1 = Raise e →
  (create_agency req w).1 = Raise e
  ∧ cache (create_agency req w).2 = cache w
  ∧ locked (create_agency req w).2 = false.
Proof.
  intros Hw Hfail. rewrite create_agency_eq by done. simpl.
  pose proof (load_agency_from_config_frame (created_id req w)
                (set_locked true (after_id req w))) as (_ & Hcache & _).
  destruct (load_agency_from_config _ _) as [[i|e'|] w1]; simplify_eq/=.
  repeat split; try done.
  rewrite Hcache. apply after_id_frame.
Qed.

(** C6: when the configuration store has no record for the identity
    [create_agency] works on, it fails with [ConfigurationNotFound] for
    that identity, raised by the factory's load of the configuration;
    nothing else happens. *)
Theorem create_agency_configuration_not_found (req : option string) (w : World) :
  locked w = false →
  store w !! created_id req w = None →
  create_agency req w
  = (Raise (ConfigurationNotFound (created_id req w)), after_id req w).
Proof.
  intros Hw Hnone.
  destruct (after_id_frame req w) as (_ & Hlock & Hstore & _).
  rewrite create_agency_eq by done. simpl.
  rewrite load_agency_from_config_set_locked, load_agency_from_config_eq.
  rewrite Hstore, Hnone. simpl.
  rewrite unlock_lock; [done|]. by rewrite Hlock.
Qed.

End FactoryFacts.

Lemma create_agency_undeclared_role_witness :
  ∃ first,
    undeclared_role broken_config = Some first
    ∧ first ∈ chart_roles broken_config
    ∧ (first ∉ declared_roles broken_config)
    ∧ create_agency (Some "broken") fresh_world
      = (Raise (KeyError first), after_id (Some "broken") fresh_world).
Proof.
  apply (create_agency_undeclared_role
           (Some "broken") fresh_world broken_config "cto").
  - reflexivity.
  - vm_compute. reflexivity.
  - apply (bool_decide_unpack _). vm_compute. exact I.
  - apply (bool_decide_unpack _). vm_compute. exact I.
Defined.

(** C3 as stated fails: the chart of "broken" names the role "cto", which
    no agent has; [create_agency] fails with [KeyError "cto"], which is
    not the runtime's [GraphConstructionError]. *)
Lemma create_agency_undeclared_role_counterexample :
  store fresh_world !! "broken" = Some broken_config
  ∧ "cto" ∈ chart_roles broken_config
  ∧ ("cto" ∉ declared_roles broken_config)
  ∧ (create_agency (Some "broken") fresh_world).1 = Raise (KeyError "cto")
  ∧ ∀ detail, (create_agency (Some "broken") fresh_world).1
              ≠ Raise (GraphConstructionError detail).
Proof.
  split; [vm_compute; reflexivity|].
  split; [apply (bool_decide_unpack _); vm_compute; exact I|].
  split; [apply (bool_decide_unpack _); vm_compute; exact I|].
  assert ((create_agency (Some "broken") fresh_world).1 = Raise (KeyError "cto"))
    as -> by (vm_compute; reflexivity).
  split; [reflexivity|discriminate].
Qed.

Lemma create_agency_failure_propagates_witness :
  (create_agency (Some "hollow") fresh_world).1
  = Raise (GraphConstructionError "empty chart")
  ∧ cache (create_agency (Some "hollow") fresh_world).2 = cache fresh_world
  ∧ locked (create_agency (Some "hollow") fresh_world).2 = false.
Proof.
  apply (create_agency_failure_propagates (Some "hollow") fresh_world).
  - reflexivity.
  - vm_compute. reflexivity.
Defined.

Lemma create_agency_configuration_not_found_witness :
  create_agency (Some "missing-agency") fresh_world
  = (Raise (ConfigurationNotFound "missing-agency"), fresh_world).
Proof.
  apply (create_agency_configuration_not_found (Some "missing-agency") fresh_world).
  - reflexivity.
  - vm_compute. reflexivity.
Defined.

(** ** What a created agency's entry survives *)

Section Runs.
Context `{Env : Environment}.

(** Every call returns the lock it took. *)
Lemma run_call_locked (call : Call) (w : World) :
  locked w = false → locked (run_call call w) = false.
Proof.
  intros Hw. destruct call as [req|a t|i a t|a t|i a t|change]; simpl.
  - rewrite create_agency_eq by done. simpl.
    pose proof (load_agency_from_config_frame (created_id req w)
                  (set_locked true (after_id req w))) as (Hblock & _).
    by destruct (load_agency_from_config _ _) as [[i|e|] w1].
  - by rewrite get_agency_free.
  - by rewrite cache_agency_free.
  - by rewrite delete_agency_from_cache_free.
  - rewrite refresh_thread_id_free by done. simpl. by case_bool_decide.
  - done.
Qed.

(** A call that does not displace the entry at a key leaves the lookup at
    that key as it was. *)
Lemma run_call_keeps (key : string) (call : Call) (w : World) :
  locked w = false →
  displaces key call w = false →
  cache (run_call call w) !! key = cache w !! key.
Proof.
  intros Hw Hcall.
  destruct call as [req|a t|i a t|a t|i a t|change]; simpl in *.
  - apply bool_decide_eq_false in Hcall.
    rewrite create_agency_eq by done. simpl.
    pose proof (load_agency_from_config_frame (created_id req w)
                  (set_locked true (after_id req w))) as (_ & Hcache & _).
    destruct (after_id_frame req w) as (Hc & _).
    destruct (load_agency_from_config _ _) as [[i|e|] w1]; simpl in *;
      rewrite Hcache, Hc; [|done..].
    by rewrite lookup_insert_ne.
  - by rewrite get_agency_free.
  - apply bool_decide_eq_false in Hcall.
    rewrite cache_agency_free by done. simpl. by rewrite lookup_insert_ne.
  - apply bool_decide_eq_false in Hcall.
    rewrite delete_agency_from_cache_free by done. simpl.
    by rewrite lookup_delete_ne.
  - rewrite refresh_thread_id_free by done. simpl.
    case_bool_decide; [|done]. simpl in *.
    apply orb_false_iff in Hcall as [H1%bool_decide_eq_false H2%bool_decide_eq_false].
    by rewrite lookup_delete_ne, lookup_insert_ne.
  - done.
Qed.

Lemma run_calls_keeps (key : string) (calls : list Call) (w : World) :
  locked w = false →
  undisturbed key calls w = true →
  locked (run_calls calls w) = false
  ∧ cache (run_calls calls w) !! key = cache w !! key.
Proof.
  revert w. induction calls as [|call calls IH]; intros w Hw Hrun; [done|].
  simpl in Hrun. apply andb_true_iff in Hrun as [Hcall%negb_true_iff Hrest].
  destruct (IH (run_call call w)) as [Hl Hc];
    [by apply run_call_locked|done|].
  split; [exact Hl|].
  unfold run_calls in *. simpl. rewrite Hc. by apply run_call_keeps.
Qed.

(** C7, amended: after [create_agency] has succeeded and returned instance
    [i] and identity [a] (the identity it was given, or the one it drew),
    [get_agency a None] returns that instance, and goes on returning it
    after any run of calls none of which displaces the entry at [a]: an
    eviction, a reconciliation from or to that key, or a later put or
    creation on it. *)
Theorem create_agency_then_get
    (req : option string) (w w1 : World) (i : Agency) (a : string) :
  locked w = false →
  create_agency req w = (Return (i, a), w1) →
  a = created_id req w
  ∧ get_agency a None w1 = (Return (Some i), w1)
  ∧ ∀ calls,
      undisturbed (get_cache_key a None) calls w1 = true →
      get_agency a None (run_calls calls w1)
      = (Return (Some i), run_calls calls w1).
Proof.
  intros Hw Hcreate. rewrite create_agency_eq in Hcreate by done.
  simpl in Hcreate.
  destruct (load_agency_from_config _ _) as [[i'|e|] w'];
    simplify_eq/=.
  assert (Hstored :
    cache (set_locked false
             (set_cache (<[created_id req w := i]> (cache w')) w'))
      !! get_cache_key (created_id req w) None = Some i)
    by apply lookup_insert_eq.
  split; [done|]. split.
  - rewrite get_agency_free by done. by rewrite Hstored.
  - intros calls Hrun.
    destruct (run_calls_keeps _ calls _ (eq_refl : locked (set_locked false _) = false) Hrun)
      as [Hl Hc].
    rewrite get_agency_free by done. by rewrite Hc, Hstored.
Qed.

End Runs.

Lemma create_agency_then_get_witness :
  let w1 := (create_agency (Some "acme") fresh_world).2 in
  let calls :=
    [ GetAgency "acme" None; CacheAgency 0 "acme" (Some "th1");
      Turn (λ _, [Some "th1"]); RefreshThreadId 0 "acme" (Some "th1");
      CreateAgency None; DeleteAgencyFromCache "acme" (Some "th1") ] in
  get_agency "acme" None w1 = (Return (Some 0), w1)
  ∧ get_agency "acme" None (run_calls calls w1)
    = (Return (Some 0), run_calls calls w1).
Proof.
  intros w1 calls.
  destruct (create_agency_then_get (Some "acme") fresh_world w1 0 "acme")
    as (_ & Hget & Hlater).
  - reflexivity.
  - vm_compute. reflexivity.
  - split; [exact Hget|]. apply Hlater. vm_compute. reflexivity.
Defined.

(** C7 as stated fails: "acme" is created and gets instance 0, "globex" is
    created and gets instance 1, and instance 1 is then put under the key
    of "acme". Nothing was evicted or reconciled, and [get_agency] for
    "acme" returns instance 1. *)
Lemma create_agency_then_get_counterexample :
  let w1 := (create_agency (Some "acme") fresh_world).2 in
  let w2 := (create_agency (Some "globex") w1).2 in
  let w3 := (cache_agency 1 "acme" None w2).2 in
  create_agency (Some "acme") fresh_world = (Return (0, "acme"), w1)
  ∧ get_agency "acme" None w1 = (Return (Some 0), w1)
  ∧ create_agency (Some "globex") w1 = (Return (1, "globex"), w2)
  ∧ cache_agency 1 "acme" None w2 = (Return (), w3)
  ∧ get_agency "acme" None w3 = (Return (Some 1), w3)
  ∧ (get_agency "acme" None w3).1 ≠ Return (Some 0).
Proof. vm_compute. repeat split; discriminate. Qed.

(** ** Tools of the built agents *)

Lemma in_TOOL_MAPPING_true (tool : string) :
  in_TOOL_MAPPING tool = true ↔ is_Some (TOOL_MAPPING !! tool).
Proof. unfold in_TOOL_MAPPING. apply bool_decide_eq_true. Qed.

Lemma resolve_tools_cons (tool : string) (rest : list string) :
  resolve_tools (tool :: rest)
  = match TOOL_MAPPING !! tool with
    | Some cls => cls :: resolve_tools rest
    | None => resolve_tools rest
    end.
Proof. reflexivity. Qed.

(** The resolved tools are, one for one and in order, the classes of the
    declared names that the registry has. *)
Lemma resolve_tools_registered (tools : list string) :
  Forall2 (λ tool cls, TOOL_MAPPING !! tool = Some cls)
          (filter (λ tool, in_TOOL_MAPPING tool = true) tools)
          (resolve_tools tools).
Proof.
  induction tools as [|tool rest IH]; [constructor|].
  rewrite resolve_tools_cons, filter_cons.
  destruct (TOOL_MAPPING !! tool) as [cls|] eqn:Hlookup.
  - rewrite decide_True by (apply in_TOOL_MAPPING_true; by rewrite Hlookup).
    by constructor.
  - rewrite decide_False; [done|].
    intros [cls Hcls]%in_TOOL_MAPPING_true. congruence.
Qed.

(** Names that the registry lacks leave no trace in the resolved tools. *)
Lemma resolve_tools_filter (tools : list string) :
  resolve_tools (filter (λ tool, in_TOOL_MAPPING tool = true) tools)
  = resolve_tools tools.
Proof.
  induction tools as [|tool rest IH]; [done|].
  rewrite filter_cons, (resolve_tools_cons tool rest).
  destruct (TOOL_MAPPING !! tool) as [cls|] eqn:Hlookup.
  - rewrite decide_True by (apply in_TOOL_MAPPING_true; by rewrite Hlookup).
    by rewrite resolve_tools_cons, Hlookup, IH.
  - rewrite decide_False; [done|].
    intros [cls Hcls]%in_TOOL_MAPPING_true. congruence.
Qed.

Lemma build_agent_known_tools_only (a : string) (conf : AgentConfig.t) :
  build_agent a (known_tools_only conf) = build_agent a conf.
Proof.
  unfold build_agent, known_tools_only. cbn [AgentConfig.tools AgentConfig.id
    AgentConfig.role AgentConfig.description AgentConfig.instructions
    AgentConfig.files_folder].
  by rewrite resolve_tools_filter.
Qed.

Lemma build_agents_known_tools_only (a : string) (confs : list AgentConfig.t) :
  build_agents a (known_tools_only <$> confs) = build_agents a confs.
Proof.
  unfold build_agents. generalize (∅ : gmap string Agent.t).
  induction confs as [|conf confs IH]; intros d; [done|].
  rewrite fmap_cons. cbn [foldl].
  by rewrite IH, build_agent_known_tools_only.
Qed.

Section ToolFacts.
Context `{Env : Environment}.

(** C8: for every agent configuration of an agency, the tools of the agent
    built from it are the classes of the declared tool names that are in
    [TOOL_MAPPING], in the order declared; every agent of the dictionary
    is such an agent; and the names that are not in the registry change
    nothing: the agents, and the outcome of the factory, are those of the
    configuration with these names removed. *)
Theorem tools_resolved_against_registry (agency_id : string) (config : AgencyConfig.t) :
  (∀ conf, conf ∈ AgencyConfig.agents config →
     Forall2 (λ tool cls, TOOL_MAPPING !! tool = Some cls)
             (filter (λ tool, in_TOOL_MAPPING tool = true) (AgentConfig.tools conf))
             (Agent.tools (build_agent agency_id conf))
     ∧ build_agent agency_id conf = build_agent agency_id (known_tools_only conf))
  ∧ (∀ role agent,
       build_agents agency_id (AgencyConfig.agents config) !! role = Some agent →
       ∃ conf, conf ∈ AgencyConfig.agents config
               ∧ AgentConfig.role conf = role
               ∧ agent = build_agent agency_id conf)
  ∧ build_agents agency_id (AgencyConfig.agents config)
    = build_agents agency_id (AgencyConfig.agents (without_unknown_tools config))
  ∧ (∀ w, store w !! agency_id = Some config →
       (load_agency_from_config agency_id w).1
       = (load_agency_from_config agency_id
            (set_store (<[agency_id := without_unknown_tools config]> (store w)) w)).1).
Proof.
  split; [|split; [|split]].
  - intros conf _. split.
    + apply resolve_tools_registered.
    + by rewrite build_agent_known_tools_only.
  - intros role agent. apply build_agents_Some.
  - symmetry. apply build_agents_known_tools_only.
  - intros w Hconfig. rewrite !load_agency_from_config_eq.
    cbn [store set_store]. rewrite lookup_insert_eq, Hconfig.
    cbn [without_unknown_tools AgencyConfig.agents AgencyConfig.agency_chart
         AgencyConfig.agency_manifesto].
    rewrite build_agents_known_tools_only.
    destruct (build_chart _ _) as [e|chart]; [done|].
    cbn [runtime set_store].
    by destruct (Agency_new _ _ _) as [[e|agency] r].
Qed.

End ToolFacts.

Lemma tools_resolved_against_registry_witness :
  Forall2 (λ tool cls, TOOL_MAPPING !! tool = Some cls)
          (filter (λ tool, in_TOOL_MAPPING tool = true) (AgentConfig.tools ceo))
          (Agent.tools (build_agent "acme" ceo))
  ∧ Agent.tools (build_agent "acme" ceo) = [SearchWeb; Retrieval]
  ∧ (load_agency_from_config "acme" fresh_world).1
    = (load_agency_from_config "acme"
         (set_store (<["acme" := without_unknown_tools acme_config]>
                       (store fresh_world)) fresh_world)).1.
Proof.
  destruct (tools_resolved_against_registry "acme" acme_config)
    as (Hconf & _ & _ & Hfactory).
  split; [|split].
  - apply (Hconf ceo). apply list_elem_of_here.
  - vm_compute. reflexivity.
  - apply (Hfactory fresh_world). vm_compute. reflexivity.
Defined.

(** * Further properties of the cache manager *)

Lemma append_assoc_string (s1 s2 s3 : string) :
  (s1 ++ s2) ++ s3 = s1 ++ (s2 ++ s3).
Proof.
  induction s1 as [|c s1 IH]; [done|].
  change ((String c s1 ++ s2) ++ s3) with (String c ((s1 ++ s2) ++ s3)).
  by rewrite IH.
Qed.

(** The part of a key after the agency identity: nothing, or a slash and
    more. *)
Lemma get_cache_key_tail (a : string) (t : option string) :
  ∃ tail, get_cache_key a t = a ++ tail
          ∧ (tail = "" ∨ ∃ s, tail = String "/"%char s).
Proof.
  unfold get_cache_key. destruct (truthy t).
  - exists ("/" ++ format_field t). split; [done|]. right. by eexists.
  - exists "". split; [by rewrite append_empty_r|by left].
Qed.

Lemma slash_free_prefix (a1 a2 x1 x2 : string) :
  contains_slash a1 = false →
  contains_slash a2 = false →
  (x1 = "" ∨ ∃ s, x1 = String "/"%char s) →
  (x2 = "" ∨ ∃ s, x2 = String "/"%char s) →
  a1 ++ x1 = a2 ++ x2 →
  a1 = a2.
Proof.
  revert a2. induction a1 as [|c1 a1 IH]; intros [|c2 a2] H1 H2 Hx1 Hx2 Heq.
  - done.
  - change ("" ++ x1) with x1 in Heq.
    change (String c2 a2 ++ x2) with (String c2 (a2 ++ x2)) in Heq.
    simpl in H2. apply orb_false_iff in H2 as [Hc _].
    destruct Hx1 as [->|[s ->]]; [done|].
    injection Heq as <- _. done.
  - change ("" ++ x2) with x2 in Heq.
    change (String c1 a1 ++ x1) with (String c1 (a1 ++ x1)) in Heq.
    simpl in H1. apply orb_false_iff in H1 as [Hc _].
    destruct Hx2 as [->|[s ->]]; [done|].
    injection Heq as -> _. done.
  - change (String c1 a1 ++ x1) with (String c1 (a1 ++ x1)) in Heq.
    change (String c2 a2 ++ x2) with (String c2 (a2 ++ x2)) in Heq.
    simpl in H1, H2.
    apply orb_false_iff in H1 as [_ H1]. apply orb_false_iff in H2 as [_ H2].
    injection Heq as -> Heq. f_equal. by apply (IH a2).
Qed.

(** X1: for agency identities that contain no slash, two pairs of
    identities have the same key only if the agency identities are equal
    and the thread identities are equal or both falsy. *)
Theorem get_cache_key_slash_free_injective
    (a1 a2 : string) (t1 t2 : option string) :
  contains_slash a1 = false →
  contains_slash a2 = false →
  get_cache_key a1 t1 = get_cache_key a2 t2 →
  a1 = a2 ∧ (t1 = t2 ∨ (truthy t1 = false ∧ truthy t2 = false)).
Proof.
  intros H1 H2 Heq.
  destruct (get_cache_key_tail a1 t1) as (x1 & E1 & Hx1).
  destruct (get_cache_key_tail a2 t2) as (x2 & E2 & Hx2).
  assert (a1 = a2) as ->.
  { apply (slash_free_prefix a1 a2 x1 x2); try done. by rewrite <- E1, <- E2. }
  split; [done|]. by apply (get_cache_key_eq_iff a2).
Qed.

Lemma get_cache_key_slash_free_injective_witness :
  "acme" = "acme" ∧ (Some "th1" = Some "th1"
                     ∨ (truthy (Some "th1") = false ∧ truthy (Some "th1") = false)).
Proof.
  apply (get_cache_key_slash_free_injective "acme" "acme" (Some "th1") (Some "th1"));
    reflexivity.
Defined.

(** X2: a slash inside the identities makes keys of different agencies
    collide: agency [a] with thread [t ++ "/" ++ u] and agency
    [a ++ "/" ++ t] with thread [u] have one key. *)
Theorem get_cache_key_slash_collision (a t u : string) :
  u ≠ "" →
  get_cache_key a (Some (t ++ "/" ++ u)) = get_cache_key (a ++ "/" ++ t) (Some u).
Proof.
  intros Hu. rewrite (get_cache_key_truthy (a ++ "/" ++ t) u Hu).
  rewrite get_cache_key_truthy.
  - by rewrite !append_assoc_string.
  - intros H. destruct t; discriminate H.
Qed.

Lemma get_cache_key_slash_collision_witness :
  get_cache_key "acme" (Some ("th1" ++ "/" ++ "x"))
  = get_cache_key ("acme" ++ "/" ++ "th1") (Some "x").
Proof. apply (get_cache_key_slash_collision "acme" "th1" "x"). discriminate. Defined.

Section MoreManagerFacts.
Context `{Env : Environment}.

(** X3: with the lock free, an instance put with [cache_agency] is what
    [get_agency] returns for the same identities, and the lookups at all
    other keys are as before. *)
Theorem cache_agency_then_get
    (i : Agency) (a : string) (t : option string) (w : World) :
  locked w = false →
  get_agency a t (cache_agency i a t w).2
  = (Return (Some i), (cache_agency i a t w).2)
  ∧ ∀ a' t',
      get_cache_key a' t' ≠ get_cache_key a t →
      get_agency a' t' (cache_agency i a t w).2
      = (Return (cache w !! get_cache_key a' t'), (cache_agency i a t w).2).
Proof.
  intros Hw. rewrite cache_agency_free by done. simpl. split.
  - rewrite get_agency_free by done. simpl. by rewrite lookup_insert_eq.
  - intros a' t' Hne. rewrite get_agency_free by done. simpl.
    by rewrite lookup_insert_ne.
Qed.

(** X4: with the lock free, after [delete_agency_from_cache] the lookup
    for the same identities finds nothing and the lookups at all other
    keys are as before; when there was no entry the call changes nothing
    and returns normally. *)
Theorem delete_agency_from_cache_then_get
    (a : string) (t : option string) (w : World) :
  locked w = false →
  get_agency a t (delete_agency_from_cache a t w).2
  = (Return None, (delete_agency_from_cache a t w).2)
  ∧ (∀ a' t',
       get_cache_key a' t' ≠ get_cache_key a t →
       get_agency a' t' (delete_agency_from_cache a t w).2
       = (Return (cache w !! get_cache_key a' t'),
          (delete_agency_from_cache a t w).2))
  ∧ (cache w !! get_cache_key a t = None →
     delete_agency_from_cache a t w = (Return (), w)).
Proof.
  intros Hw. rewrite delete_agency_from_cache_free by done. simpl.
  split; [|split].
  - rewrite get_agency_free by done. simpl. by rewrite lookup_delete_eq.
  - intros a' t' Hne. rewrite get_agency_free by done. simpl.
    by rewrite lookup_delete_ne.
  - intros Hnone. rewrite delete_id by done. by destruct w.
Qed.

(** X5: whatever calls are made one after the other, and however each of
    them ends, the lock is free again after the last one. *)
Theorem run_calls_release_lock (calls : list Call) (w : World) :
  locked w = false → locked (run_calls calls w) = false.
Proof.
  revert w. induction calls as [|call calls IH]; intros w Hw; [done|].
  unfold run_calls in *. simpl. apply IH. by apply run_call_locked.
Qed.

(** X6: when the configuration is stored and every role of its chart is
    declared, the chart is built and [create_agency] does what the runtime
    decides: on an agency it returns it with the identity, caches it under
    the identity, stores the configuration written back and releases the
    lock; on an error it raises that error and only the runtime's state
    has changed. *)
Theorem create_agency_declared_roles
    (req : option string) (w : World) (config : AgencyConfig.t) :
  locked w = false →
  store w !! created_id req w = Some config →
  undeclared_role config = None →
  let a := created_id req w in
  ∃ chart,
    build_chart (build_agents a (AgencyConfig.agents config))
                (AgencyConfig.agency_chart config) = inr chart
    ∧ (∀ agency r,
         Agency_new chart (AgencyConfig.agency_manifesto config) (runtime w)
         = (inr agency, r) →
         create_agency req w
         = (Return (agency, a),
            mkWorld (<[a := agency]> (cache w)) false
                    (<[a := update_agent_ids_in_config config a
                              (Agency_agents r agency)]> (store w))
                    r (uuid_calls (after_id req w))))
    ∧ (∀ e r,
         Agency_new chart (AgencyConfig.agency_manifesto config) (runtime w)
         = (inl e, r) →
         create_agency req w = (Raise e, set_runtime r (after_id req w))).
Proof.
  intros Hw Hconfig Hroles a. subst a.
  pose proof (build_chart_config (created_id req w) config) as Hchart.
  rewrite Hroles in Hchart. destruct Hchart as [chart Hchart].
  exists chart. split; [done|].
  destruct (after_id_frame req w) as (Hc & Hl & Hs & Hr).
  split.
  - intros agency r Hnew. rewrite create_agency_eq by done. simpl.
    rewrite load_agency_from_config_set_locked, load_agency_from_config_eq.
    rewrite Hs, Hconfig, Hchart, Hr, Hnew. simpl.
    by rewrite Hc.
  - intros e r Hnew. rewrite create_agency_eq by done. simpl.
    rewrite load_agency_from_config_set_locked, load_agency_from_config_eq.
    rewrite Hs, Hconfig, Hchart, Hr, Hnew. simpl.
    unfold set_locked, set_runtime. simpl. by rewrite Hl, Hw.
Qed.

(** X7: with the lock free, [create_agency] changes the cache at most at
    the identity it works on, however it ends. *)
Theorem create_agency_other_keys
    (req : option string) (w : World) (key : string) :
  locked w = false →
  key ≠ created_id req w →
  cache (create_agency req w).2 !! key = cache w !! key.
Proof.
  intros Hw Hkey.
  apply (run_call_keeps key (CreateAgency req) w Hw).
  simpl. by apply bool_decide_eq_false.
Qed.

(** X8: [create_agency] draws one identifier when it is given no identity
    or the empty one and none otherwise, whether or not it gets the lock
    and however the factory ends. *)
Theorem create_agency_uuid_calls (req : option string) (w : World) :
  uuid_calls (create_agency req w).2
  = if truthy req then uuid_calls w else S (uuid_calls w).
Proof.
  assert (uuid_calls (after_id req w)
          = if truthy req then uuid_calls w else S (uuid_calls w)) as <-.
  { unfold after_id. by destruct (truthy req). }
  unfold create_agency. unfold mbind at 1. unfold Task_bind, bind.
  rewrite agency_id_or_uuid_eq. unfold async_with_lock.
  destruct (locked (after_id req w)); [done|].
  unfold_task.
  pose proof (load_agency_from_config_frame (created_id req w)
                (set_locked true (after_id req w))) as (_ & _ & _ & Hu).
  by destruct (load_agency_from_config _ _) as [[i|e|] w1].
Qed.

(** X9: with the lock free, a second [refresh_thread_id] with the identity
    the first one saw reported returns [None] and changes nothing, as long
    as the runtime has not changed it again. *)
Theorem refresh_thread_id_twice
    (i : Agency) (a : string) (t : option string) (w : World) :
  locked w = false →
  refresh_thread_id i a (main_thread_id (runtime w) i)
                    (refresh_thread_id i a t w).2
  = (Return None, (refresh_thread_id i a t w).2).
Proof.
  intros Hw. rewrite (refresh_thread_id_free i a t w) by done. simpl.
  case_bool_decide; simpl.
  - rewrite refresh_thread_id_free by done. simpl.
    by rewrite bool_decide_false by (intros ?; congruence).
  - rewrite refresh_thread_id_free by done. simpl.
    by rewrite bool_decide_false by (intros ?; congruence).
Qed.

(** X10: with the lock free, [refresh_thread_id] touches the cache only at
    the keys of the old and of the reported identity, and leaves the lock
    free and the store, the runtime and the identifiers drawn as they
    were. *)
Theorem refresh_thread_id_frame
    (i : Agency) (a : string) (t : option string) (w : World) (key : string) :
  locked w = false →
  key ≠ get_cache_key a t →
  key ≠ get_cache_key a (main_thread_id (runtime w) i) →
  let w' := (refresh_thread_id i a t w).2 in
  cache w' !! key = cache w !! key
  ∧ locked w' = false
  ∧ store w' = store w
  ∧ runtime w' = runtime w
  ∧ uuid_calls w' = uuid_calls w.
Proof.
  intros Hw H1 H2 w'. subst w'.
  rewrite refresh_thread_id_free by done. simpl.
  case_bool_decide; simpl; [|done].
  by rewrite lookup_delete_ne, lookup_insert_ne.
Qed.

(** X11: an agency created and then put again under a non-empty thread
    identity, as a new session does, is one instance that [get_agency]
    returns both without and with that thread identity. *)
Theorem create_agency_then_cache_thread
    (req : option string) (w w1 : World) (i : Agency) (a th : string) :
  locked w = false →
  create_agency req w = (Return (i, a), w1) →
  th ≠ "" →
  let w2 := (cache_agency i a (Some th) w1).2 in
  cache_agency i a (Some th) w1 = (Return (), w2)
  ∧ get_agency a None w2 = (Return (Some i), w2)
  ∧ get_agency a (Some th) w2 = (Return (Some i), w2).
Proof.
  intros Hw Hcreate Hth w2. subst w2.
  assert (locked w1 = false) as Hw1.
  { pose proof (run_call_locked (CreateAgency req) w Hw) as H.
    simpl in H. by rewrite Hcreate in H. }
  assert (cache w1 !! a = Some i) as Hi.
  { rewrite create_agency_eq in Hcreate by done. simpl in Hcreate.
    destruct (load_agency_from_config _ _) as [[i'|e|] w']; simplify_eq/=.
    apply lookup_insert_eq. }
  rewrite cache_agency_free by done. simpl. split; [done|].
  rewrite !get_agency_free by done. simpl.
  rewrite lookup_insert_eq. split; [|done].
  rewrite lookup_insert_ne.
  - change (get_cache_key a None) with a. by rewrite Hi.
  - apply (get_cache_key_truthy_ne a th None Hth eq_refl).
Qed.

End MoreManagerFacts.

Lemma cache_agency_then_get_witness :
  let w' := (cache_agency 5 "globex" (Some "th1") (acme_cached [])).2 in
  get_agency "globex" (Some "th1") w' = (Return (Some 5), w')
  ∧ get_agency "acme" None w' = (Return (Some 0), w').
Proof.
  intros w'. subst w'.
  destruct (cache_agency_then_get (Env := numbered)
              5 "globex" (Some "th1") (acme_cached []) eq_refl) as [Hsame Hother].
  split; [exact Hsame|].
  rewrite (Hother "acme" None); [vm_compute; reflexivity|discriminate].
Defined.

Lemma delete_agency_from_cache_then_get_witness :
  let w' := (delete_agency_from_cache "acme" None (acme_cached [])).2 in
  get_agency "acme" None w' = (Return None, w')
  ∧ delete_agency_from_cache "globex" None (acme_cached [])
    = (Return (), acme_cached []).
Proof.
  intros w'. subst w'. split.
  - apply (delete_agency_from_cache_then_get "acme" None (acme_cached []) eq_refl).
  - apply (delete_agency_from_cache_then_get "globex" None (acme_cached []) eq_refl).
    vm_compute. reflexivity.
Defined.

Lemma run_calls_release_lock_witness :
  locked (run_calls [ CreateAgency (Some "acme"); CreateAgency (Some "broken");
                      GetAgency "acme" None; RefreshThreadId 0 "acme" None;
                      DeleteAgencyFromCache "acme" None ] fresh_world) = false.
Proof. apply run_calls_release_lock. reflexivity. Defined.

Lemma create_agency_declared_roles_witness :
  create_agency (Some "acme") fresh_world
  = (Return (0, "acme"),
     mkWorld {[ "acme" := 0 ]} false (store fresh_world) [None] 0).
Proof.
  destruct (create_agency_declared_roles (Some "acme") fresh_world acme_config)
    as (chart & Hchart & Hok & _).
  - reflexivity.
  - vm_compute. reflexivity.
  - vm_compute. reflexivity.
  - rewrite (Hok 0 [None]).
    + vm_compute. reflexivity.
    + vm_compute in Hchart. injection Hchart as <-. reflexivity.
Defined.

Lemma create_agency_other_keys_witness :
  cache (create_agency (Some "globex") (acme_cached [None])).2 !! "acme" = Some 0.
Proof.
  etransitivity.
  - apply (create_agency_other_keys (Env := numbered)
             (Some "globex") (acme_cached [None]) "acme");
      [reflexivity|discriminate].
  - vm_compute. reflexivity.
Defined.

Lemma refresh_thread_id_twice_witness :
  let w1 := (refresh_thread_id 0 "acme" None (acme_cached [Some "th1"])).2 in
  refresh_thread_id 0 "acme" (Some "th1") w1 = (Return None, w1).
Proof.
  apply (refresh_thread_id_twice (Env := numbered)
           0 "acme" None (acme_cached [Some "th1"])).
  reflexivity.
Defined.

Lemma refresh_thread_id_frame_witness :
  let w := mkWorld (Env := numbered)
             {[ "acme" := 0; "globex" := 1 ]} false ∅ [Some "th1"; None] 0 in
  let w' := (refresh_thread_id 0 "acme" None w).2 in
  cache w' !! "globex" = Some 1
  ∧ locked w' = false
  ∧ store w' = store w
  ∧ runtime w' = runtime w
  ∧ uuid_calls w' = uuid_calls w.
Proof.
  intros w w'. subst w' w.
  destruct (refresh_thread_id_frame (Env := numbered) 0 "acme" None
    (mkWorld (Env := numbered)
       {[ "acme" := 0; "globex" := 1 ]} false ∅ [Some "th1"; None] 0)
              "globex")
    as (Hkey & Hrest); [reflexivity|discriminate|discriminate|].
  split; [|exact Hrest].
  etransitivity; [exact Hkey|]. vm_compute. reflexivity.
Defined.

Lemma create_agency_then_cache_thread_witness :
  let w1 := (create_agency (Some "acme") fresh_world).2 in
  let w2 := (cache_agency 0 "acme" (Some "th1") w1).2 in
  cache_agency 0 "acme" (Some "th1") w1 = (Return (), w2)
  ∧ get_agency "acme" None w2 = (Return (Some 0), w2)
  ∧ get_agency "acme" (Some "th1") w2 = (Return (Some 0), w2).
Proof.
  intros w1.
  apply (create_agency_then_cache_thread (Env := numbered)
           (Some "acme") fresh_world w1 0 "acme" "th1").
  - reflexivity.
  - vm_compute. reflexivity.
  - discriminate.
Defined.

(** * Further properties of the agent factory *)

(** X12: in the dictionary of agents, a role maps to the agent built from
    the last agent configuration with that role, and to nothing when no
    configuration has it. *)
Theorem build_agents_last_wins
    (a : string) (confs : list AgentConfig.t) (role : string) :
  build_agents a confs !! role
  = build_agent a <$> last (filter (λ conf, AgentConfig.role conf = role) confs).
Proof.
  unfold build_agents.
  induction confs as [|conf confs IH] using rev_ind; [done|].
  rewrite foldl_snoc, filter_app, filter_cons, filter_nil.
  destruct (decide (AgentConfig.role conf = role)) as [<-|Hne].
  - by rewrite lookup_insert_eq, last_snoc.
  - rewrite lookup_insert_ne by done. by rewrite app_nil_r.
Qed.

Lemma subscript_all_inr (agents : gmap string Agent.t)
    (roles : list string) (members : list Agent.t) :
  subscript_all agents roles = inr members
  ↔ Forall2 (λ role agent, agents !! role = Some agent) roles members.
Proof.
  revert members. induction roles as [|role roles IH]; intros members; simpl.
  - split.
    + intros [= <-]. constructor.
    + intros H. by inversion H.
  - unfold subscript. destruct (agents !! role) as [agent|] eqn:Hrole; simpl.
    + destruct (subscript_all agents roles) as [e|others]; simpl.
      * split; [done|]. intros H. inversion H as [|? ? ? ? _ Hrest]; subst.
        by apply IH in Hrest.
      * split.
        -- intros [= <-]. constructor; [done|]. by apply IH.
        -- intros H. inversion H as [|? agent' ? others' Hhead Hrest]; subst.
           apply IH in Hrest. by simplify_eq.
    + split; [done|]. intros H. inversion H; subst. congruence.
Qed.

(** X13: the chart is built exactly when every entry can be: the result
    has one element per entry of the configured chart, a single agent for
    a single role and a list of as many agents for a list of roles, each
    the dictionary's agent for the role at that place. *)
Theorem build_chart_inr (agents : gmap string Agent.t)
    (charts : list (ChartEntry string)) (built : list (ChartEntry Agent.t)) :
  build_chart agents charts = inr built
  ↔ Forall2 (entry_built agents) charts built.
Proof.
  revert built. induction charts as [|chart charts IH]; intros built; simpl.
  - split.
    + intros [= <-]. constructor.
    + intros H. by inversion H.
  - assert (∀ entry, build_chart_entry agents chart = inr entry
                     ↔ entry_built agents chart entry) as Hentry.
    { intros entry. destruct chart as [role|roles]; simpl.
      - unfold subscript. destruct (agents !! role) as [agent|]; simpl.
        + destruct entry as [agent'|members]; split; intros H;
            simplify_eq/=; done.
        + destruct entry; split; intros H; simplify_eq/=; done.
      - destruct (subscript_all agents roles) as [e|members] eqn:Hall; simpl.
        + destruct entry as [agent'|members']; split; intros H;
            simplify_eq/=; try done.
          apply subscript_all_inr in H. congruence.
        + destruct entry as [agent'|members']; split; intros H;
            simplify_eq/=; try done.
          * by apply subscript_all_inr.
          * apply subscript_all_inr in H. congruence. }
    destruct (build_chart_entry agents chart) as [e|entry] eqn:Hchart; simpl.
    + split; [done|]. intros H. inversion H as [|? entry ? ? Hhead _]; subst.
      apply Hentry in Hhead. congruence.
    + destruct (build_chart agents charts) as [e|entries]; simpl.
      * split; [done|]. intros H. inversion H as [|? ? ? ? _ Hrest]; subst.
        by apply IH in Hrest.
      * split.
        -- intros [= <-]. constructor; [by apply Hentry|by apply IH].
        -- intros H. inversion H as [|? entry' ? entries' Hhead Hrest]; subst.
           apply Hentry in Hhead. apply IH in Hrest. by simplify_eq.
Qed.

Lemma resolve_tools_length (tools : list string) :
  (List.length (resolve_tools tools) ≤ List.length tools)%nat.
Proof.
  induction tools as [|tool rest IH]; [done|].
  rewrite resolve_tools_cons. destruct (TOOL_MAPPING !! tool); simpl; lia.
Qed.

(** X14: no declared tool is lost, that is as many tools are attached as
    names were declared, exactly when every declared name is in
    [TOOL_MAPPING]. *)
Theorem resolve_tools_nothing_dropped (tools : list string) :
  List.length (resolve_tools tools) = List.length tools
  ↔ Forall (λ tool, is_Some (TOOL_MAPPING !! tool)) tools.
Proof.
  induction tools as [|tool rest IH]; [by split; [constructor|]|].
  rewrite resolve_tools_cons, Forall_cons.
  pose proof (resolve_tools_length rest).
  destruct (TOOL_MAPPING !! tool) as [cls|]; simpl.
  - rewrite <- IH. split; [intros [= ?]; split; [by eexists|done]|].
    intros [_ ->]. done.
  - split; [lia|]. intros [[? [=]] _].
Qed.

(** * The code summary tool *)

Lemma length_append_string (s1 s2 : string) :
  String.length (s1 ++ s2) = (String.length s1 + String.length s2)%nat.
Proof.
  induction s1 as [|c s1 IH]; [done|].
  change (String c s1 ++ s2) with (String c (s1 ++ s2)). simpl. by rewrite IH.
Qed.

Lemma substring_0_length (n : nat) (s : string) :
  String.length (String.substring 0 n s) = (n `min` String.length s)%nat.
Proof.
  revert s. induction n as [|n IH]; intros [|c s]; simpl; try done.
  by rewrite IH.
Qed.

Lemma substring_0_all (n : nat) (s : string) :
  (String.length s ≤ n)%nat → String.substring 0 n s = s.
Proof.
  revert s. induction n as [|n IH]; intros [|c s] Hn; simpl in *;
    try done; try lia.
  rewrite IH; [done|lia].
Qed.

Lemma substring_0_append (n : nat) (s1 s2 : string) :
  (n ≤ String.length s1)%nat →
  String.substring 0 n (s1 ++ s2) = String.substring 0 n s1.
Proof.
  revert s1. induction n as [|n IH]; intros [|c s1] Hn; simpl in *;
    try done; try lia.
  - by destruct s2.
  - change (String c s1 ++ s2) with (String c (s1 ++ s2)). simpl.
    rewrite IH; [done|lia].
Qed.

Lemma TRUNCATION_NOTE_length : String.length TRUNCATION_NOTE = 74%nat.
Proof. vm_compute. reflexivity. Qed.

Section SummarizeCodeFacts.
Variables (Path Failure : Type).
Variables (SYSTEM_MESSAGE gpt_cheap_model : string).
Variable PrintAllFilesInPath_run : Path → gset string → Failure + string.

(** X15: whatever the completion is, a summary that [SummarizeCode.run]
    returns has at most 20000 characters and the 74 of the note. *)
Theorem SummarizeCode_run_bounded
    (get_chat_completion : string → string → string → Failure + string)
    (self : SummarizeCodeArgs Path) (out : string) :
  SummarizeCode_run Path Failure SYSTEM_MESSAGE gpt_cheap_model
    PrintAllFilesInPath_run get_chat_completion self = inr out →
  (Z.of_nat (String.length out) ≤ 20074)%Z.
Proof.
  unfold SummarizeCode_run, OUTPUT_LIMIT.
  destruct (PrintAllFilesInPath_run _ _) as [e|full_code]; [done|].
  destruct (get_chat_completion _ _ _) as [e|output]; [done|].
  destruct (Z.ltb_spec 20000 (Z.of_nat (String.length output))) as [Hlong|Hshort];
    intros [= <-]; [|lia].
  rewrite length_append_string, substring_0_length, TRUNCATION_NOTE_length.
  lia.
Qed.

(** X16: the summary starts with the first 20000 characters of the
    completion; a completion of at most 20000 characters is returned as it
    is, and a longer one is returned cut after 20000 characters with the
    note after them. *)
Theorem SummarizeCode_run_keeps_prefix
    (get_chat_completion : string → string → string → Failure + string)
    (self : SummarizeCodeArgs Path) (full_code output : string) :
  PrintAllFilesInPath_run (start_path self) (file_extensions self) = inr full_code →
  get_chat_completion (USER_PROMPT_PREFIX ++ full_code) SYSTEM_MESSAGE gpt_cheap_model
  = inr output →
  ∃ out,
    SummarizeCode_run Path Failure SYSTEM_MESSAGE gpt_cheap_model
      PrintAllFilesInPath_run get_chat_completion self = inr out
    ∧ String.substring 0 (Z.to_nat 20000) out
      = String.substring 0 (Z.to_nat 20000) output
    ∧ ((Z.of_nat (String.length output) ≤ 20000)%Z → out = output)
    ∧ ((20000 < Z.of_nat (String.length output))%Z →
       out = String.substring 0 (Z.to_nat 20000) output ++ TRUNCATION_NOTE
       ∧ String.length out = Z.to_nat 20074).
Proof.
  intros Hcode Houtput. unfold SummarizeCode_run, OUTPUT_LIMIT.
  rewrite Hcode, Houtput.
  destruct (Z.ltb_spec 20000 (Z.of_nat (String.length output))) as [Hlong|Hshort];
    eexists; (split; [reflexivity|]).
  - split; [|split; [lia|]].
    + rewrite substring_0_append; [|rewrite substring_0_length; lia].
      apply substring_0_all. rewrite substring_0_length. lia.
    + intros _. split; [done|].
      rewrite length_append_string, substring_0_length, TRUNCATION_NOTE_length.
      lia.
  - split; [done|]. split; [done|lia].
Qed.

(** X17: a returned summary is not cut further by the tool: a run whose
    completion is the summary of an earlier run returns it as it is. *)
Theorem SummarizeCode_run_fixed_point
    (first second : string → string → string → Failure + string)
    (self self' : SummarizeCodeArgs Path) (full_code out : string) :
  SummarizeCode_run Path Failure SYSTEM_MESSAGE gpt_cheap_model
    PrintAllFilesInPath_run first self = inr out →
  PrintAllFilesInPath_run (start_path self') (file_extensions self') = inr full_code →
  second (USER_PROMPT_PREFIX ++ full_code) SYSTEM_MESSAGE gpt_cheap_model = inr out →
  SummarizeCode_run Path Failure SYSTEM_MESSAGE gpt_cheap_model
    PrintAllFilesInPath_run second self' = inr out.
Proof.
  intros Hfirst Hcode Hsecond.
  unfold SummarizeCode_run in *. rewrite Hcode, Hsecond.
  destruct (PrintAllFilesInPath_run (start_path self) _) as [e|code]; [done|].
  destruct (first _ _ _) as [e|output]; [done|].
  unfold OUTPUT_LIMIT in *.
  destruct (Z.ltb_spec 20000 (Z.of_nat (String.length output))) as [Hlong|Hshort];
    injection Hfirst as <-.
  - rewrite (proj2 (Z.ltb_lt _ _)).
    + rewrite substring_0_append; [|rewrite substring_0_length; lia].
      rewrite substring_0_all; [done|]. rewrite substring_0_length. lia.
    + rewrite length_append_string, substring_0_length, TRUNCATION_NOTE_length.
      lia.
  - by rewrite (proj2 (Z.ltb_ge _ _)).
Qed.

(** X18: [SummarizeCode.run] fails exactly when listing the files fails or
    the completion does, and then with that very failure. *)
Theorem SummarizeCode_run_failure
    (get_chat_completion : string → string → string → Failure + string)
    (self : SummarizeCodeArgs Path) (e : Failure) :
  SummarizeCode_run Path Failure SYSTEM_MESSAGE gpt_cheap_model
    PrintAllFilesInPath_run get_chat_completion self = inl e
  ↔ PrintAllFilesInPath_run (start_path self) (file_extensions self) = inl e
    ∨ ∃ full_code,
        PrintAllFilesInPath_run (start_path self) (file_extensions self)
        = inr full_code
        ∧ get_chat_completion (USER_PROMPT_PREFIX ++ full_code)
                              SYSTEM_MESSAGE gpt_cheap_model = inl e.
Proof.
  unfold SummarizeCode_run.
  destruct (PrintAllFilesInPath_run _ _) as [e'|full_code].
  - split; [intros [= ->]; by left|]. intros [[= ->]|(? & [=] & _)]. done.
  - destruct (get_chat_completion _ _ _) as [e'|output] eqn:Hout.
    + split.
      * intros [= ->]. right. by exists full_code.
      * intros [[=]|(code & [= <-] & H)]. congruence.
    + split.
      * by destruct (_ <? _)%Z.
      * intros [[=]|(code & [= <-] & H)]. congruence.
Qed.

End SummarizeCodeFacts.

Lemma SummarizeCode_run_bounded_witness :
  (Z.of_nat (String.length "Summary of the code") ≤ 20074)%Z.
Proof.
  apply (SummarizeCode_run_bounded string string "system" "gpt-3.5-turbo-1106"
           listing_stub short_completion (mkSummarizeCodeArgs "src" ∅)).
  reflexivity.
Defined.

Lemma SummarizeCode_run_keeps_prefix_witness :
  ∃ out,
    SummarizeCode_run string string "system" "gpt-3.5-turbo-1106"
      listing_stub short_completion (mkSummarizeCodeArgs "src" ∅) = inr out
    ∧ String.substring 0 (Z.to_nat 20000) out
      = String.substring 0 (Z.to_nat 20000) "Summary of the code"
    ∧ ((Z.of_nat (String.length "Summary of the code") ≤ 20000)%Z →
       out = "Summary of the code")
    ∧ ((20000 < Z.of_nat (String.length "Summary of the code"))%Z →
       out = String.substring 0 (Z.to_nat 20000) "Summary of the code"
             ++ TRUNCATION_NOTE
       ∧ String.length out = Z.to_nat 20074).
Proof.
  apply (SummarizeCode_run_keeps_prefix string string "system" "gpt-3.5-turbo-1106"
           listing_stub short_completion (mkSummarizeCodeArgs "src" ∅) "print(1)").
  - reflexivity.
  - reflexivity.
Defined.

Lemma SummarizeCode_run_fixed_point_witness :
  SummarizeCode_run string string "system" "gpt-3.5-turbo-1106" listing_stub
    (λ _ _ _, inr "Summary of the code") (mkSummarizeCodeArgs "lib" ∅)
  = inr "Summary of the code".
Proof.
  apply (SummarizeCode_run_fixed_point string string "system" "gpt-3.5-turbo-1106"
           listing_stub short_completion _
           (mkSummarizeCodeArgs "src" ∅) (mkSummarizeCodeArgs "lib" ∅) "print(1)").
  - reflexivity.
  - reflexivity.
  - reflexivity.
Defined.

Lemma SummarizeCode_run_failure_witness :
  SummarizeCode_run string string "system" "gpt-3.5-turbo-1106"
    listing_stub failing_completion (mkSummarizeCodeArgs "src" ∅)
  = inl "API failed"
  ∧ SummarizeCode_run string string "system" "gpt-3.5-turbo-1106"
      listing_stub short_completion (mkSummarizeCodeArgs "" ∅)
    = inl "no such path".
Proof.
  split.
  - apply (SummarizeCode_run_failure string string "system" "gpt-3.5-turbo-1106"
             listing_stub failing_completion (mkSummarizeCodeArgs "src" ∅)).
    right. exists "print(1)". split; reflexivity.
  - apply (SummarizeCode_run_failure string string "system" "gpt-3.5-turbo-1106"
             listing_stub short_completion (mkSummarizeCodeArgs "" ∅)).
    left. reflexivity.
Defined.

(** * The authentication dependencies *)

Section AuthFacts.
Variables (Claims Failure : Type).
Variable verify_id_token : string → Failure + Claims.
Variable str_of : Failure → string.
Variable User_of_claims : Claims → Failure + User.t.

Let superuser :=
  resolve_current_superuser Claims Failure verify_id_token str_of User_of_claims.
Let active_user :=
  resolve_current_active_user Claims Failure verify_id_token str_of User_of_claims.

(** X19: a route that depends on [get_current_superuser] is given a user
    exactly when the token is verified, the user is built from its claims,
    and that user is not disabled and is a superuser; every such user is
    also what [get_current_active_user] yields. *)
Theorem resolve_current_superuser_inr (credentials : string) (u : User.t) :
  (superuser credentials = inr u
   ↔ ∃ claims,
       verify_id_token credentials = inr claims
       ∧ User_of_claims claims = inr u
       ∧ User.disabled u = false
       ∧ User.is_superuser u = true)
  ∧ (superuser credentials = inr u → active_user credentials = inr u).
Proof.
  unfold superuser, active_user, resolve_current_superuser,
    resolve_current_active_user, depends,
    get_current_user, get_current_active_user, get_current_superuser.
  destruct (verify_id_token credentials) as [err|claims].
  { split; [split; [done|intros (? & [=] & _)]|done]. }
  destruct (User_of_claims claims) as [e|u'] eqn:Hu.
  { split; [split; [done|]|done]. intros (? & [= <-] & H & _). congruence. }
  destruct (User.disabled u') eqn:Hd.
  { split; [split; [done|]|done].
    intros (? & [= <-] & H & Hd' & _). congruence. }
  destruct (User.is_superuser u') eqn:Hs; simpl.
  - split; [split|done].
    + intros [= <-]. by exists claims.
    + intros (? & [= <-] & H & _). congruence.
  - split; [split; [done|]|done].
    intros (? & [= <-] & H & _ & Hs'). congruence.
Qed.


End AuthFacts.

Lemma resolve_current_superuser_inr_witness :
  resolve_current_superuser nat string verify_stub id user_stub "root"
  = inr (User.mk "u1" false true)
  ∧ resolve_current_active_user nat string verify_stub id user_stub "root"
    = inr (User.mk "u1" false true).
Proof.
  destruct (resolve_current_superuser_inr nat string verify_stub id user_stub
              "root" (User.mk "u1" false true)) as [Hiff Hactive].
  assert (resolve_current_superuser nat string verify_stub id user_stub "root"
          = inr (User.mk "u1" false true)) as Hroot.
  { apply Hiff. exists 4. repeat split. }
  split; [exact Hroot|exact (Hactive Hroot)].
Defined.


(** * The skill storage *)

Section SkillStorageFacts.
Variable auto_id : gmap string SkillConfig.t → string.
Variable stream : gmap string SkillConfig.t → list (string * SkillConfig.t).

(** X21: [save] answers the identifier the configuration is stored under
    (its own, or the new document's when it had none) and its version; the
    document then read back under that identifier is the configuration
    with that identifier, every other document is as before, and a
    collection in which every document carries its identifier stays
    so. *)
Theorem save_then_load_by_id (config : SkillConfig.t) (db : gmap string SkillConfig.t) :
  let id_ := (save auto_id config db).1.1 in
  let db' := (save auto_id config db).2 in
  id_ = default (auto_id db) (SkillConfig.id config)
  ∧ (save auto_id config db).1.2 = SkillConfig.version config
  ∧ load_by_id id_ db' = Some (SkillConfig.set_id (Some id_) config)
  ∧ (∀ other, other ≠ id_ → load_by_id other db' = load_by_id other db)
  ∧ (ids_consistent db → ids_consistent db').
Proof.
  unfold save, load_by_id.
  destruct config as [[id_|] user title version approved timestamp rest]; simpl.
  - repeat split.
    + apply lookup_insert_eq.
    + intros other Hne. by rewrite lookup_insert_ne.
    + intros Hdb key c [[<- <-]|[_ Hc]]%lookup_insert_Some; [done|by apply Hdb].
  - repeat split.
    + apply lookup_insert_eq.
    + intros other Hne. by rewrite !lookup_insert_ne.
    + intros Hdb key c [[<- <-]|[Hne Hc]]%lookup_insert_Some; [done|].
      rewrite lookup_insert_ne in Hc by done. by apply Hdb.
Qed.

(** X22: when a query streams the documents of the collection, each once
    and in whatever order, [load_by_user_id] returns exactly the stored
    configurations of that user ([None] for the common ones), and
    [load_by_title] returns a stored configuration with that title, or
    [None] exactly when there is none. *)
Theorem load_by_queries (db : gmap string SkillConfig.t) :
  stream db ≡ₚ map_to_list db →
  (∀ user_id config,
     config ∈ load_by_user_id stream user_id db
     ↔ ∃ key, db !! key = Some config ∧ SkillConfig.user_id config = user_id)
  ∧ (∀ title config,
       load_by_title stream title db = Some config →
       ∃ key, db !! key = Some config ∧ SkillConfig.title config = title)
  ∧ (∀ title,
       load_by_title stream title db = None
       ↔ ∀ key config, db !! key = Some config → SkillConfig.title config ≠ title).
Proof.
  intros Hstream.
  assert (∀ (P : string * SkillConfig.t → Prop) `{!∀ d, Decision (P d)} config,
            config ∈ (snd <$> filter P (stream db))
            ↔ ∃ key, db !! key = Some config ∧ P (key, config)) as Hmem.
  { intros P ? config. rewrite list_elem_of_fmap. split.
    - intros ([key c] & -> & [HP Hin]%list_elem_of_filter).
      rewrite Hstream in Hin. apply elem_of_map_to_list in Hin. by exists key.
    - intros (key & Hkey & HP). exists (key, config). split; [done|].
      apply list_elem_of_filter. split; [done|].
      rewrite Hstream. by apply elem_of_map_to_list. }
  split; [|split].
  - intros user_id config. unfold load_by_user_id. by rewrite Hmem.
  - intros title config Hhead. unfold load_by_title in Hhead.
    apply head_Some_elem_of in Hhead. by apply Hmem in Hhead.
  - intros title. unfold load_by_title. rewrite head_None. split.
    + intros Hnil key config Hkey Htitle.
      assert (config ∈ (snd <$> filter
                (λ d : string * SkillConfig.t, SkillConfig.title d.2 = title)
                (stream db))) as Hin by (apply Hmem; by exists key).
      rewrite Hnil in Hin. by apply not_elem_of_nil in Hin.
    + intros Hnone.
      destruct (snd <$> filter _ (stream db)) as [|config l] eqn:Hl; [done|].
      assert (config ∈ config :: l) as Hin by apply list_elem_of_here.
      rewrite <- Hl in Hin. apply Hmem in Hin as (key & Hkey & Htitle).
      by destruct (Hnone key config Hkey).
Qed.

End SkillStorageFacts.

(** * The skill routes *)

Section SkillRouteFacts.
Variable auto_id : gmap string SkillConfig.t → string.
Variable stream : gmap string SkillConfig.t → list (string * SkillConfig.t).
Variable storage_delete : string → gmap string SkillConfig.t → gmap string SkillConfig.t.
Variable Failure : Type.
Variable SkillService_execute_skill : string → string → Failure + string.

Let create := create_skill_version auto_id Failure.
Let execute := execute_skill Failure SkillService_execute_skill.
Let approve := approve_skill auto_id Failure.

(** X23: [get_skill_config] answers a configuration exactly when it is
    stored under the identifier and is a common one (no user, or the empty
    one) or the current user's; it never changes the collection. *)
Theorem get_skill_config_visible
    (current_user : User.t) (id : string) (db : gmap string SkillConfig.t)
    (config : SkillConfig.t) :
  ((get_skill_config Failure current_user id db).1 = inr config
   ↔ db !! id = Some config
     ∧ (truthy (SkillConfig.user_id config) = false
        ∨ SkillConfig.user_id config = Some (User.id current_user)))
  ∧ (get_skill_config Failure current_user id db).2 = db.
Proof.
  unfold get_skill_config, load_by_id.
  destruct (db !! id) as [stored|]; simpl.
  - destruct (truthy (SkillConfig.user_id stored)) eqn:Htruthy; simpl.
    + case_bool_decide as Howner; simpl.
      * split; [|done]. split; [done|].
        intros [[= <-] [?|?]]; congruence.
      * split; [|done]. split.
        -- intros [= <-]. split; [done|by right].
        -- by intros [[= <-] _].
    + split; [|done]. split.
      * intros [= <-]. split; [done|by left].
      * by intros [[= <-] _].
  - split; [|done]. split; [done|by intros [[=] _]].
Qed.

(** X24: [create_skill_version] never changes a document that belongs to
    another user or to nobody, whatever configuration is posted and
    however the route ends, provided the identifier of a new document is
    not in use and no document has the empty identifier. *)
Theorem create_skill_version_keeps_others
    (current_user : User.t) (config : SkillConfig.t) (now : string)
    (db : gmap string SkillConfig.t) (key : string) (stored : SkillConfig.t) :
  db !! auto_id db = None →
  db !! "" = None →
  db !! key = Some stored →
  SkillConfig.user_id stored ≠ Some (User.id current_user) →
  (create current_user config now db).2 !! key = Some stored.
Proof.
  intros Hfresh Hempty Hkey Hother.
  assert (key ≠ auto_id db) as Hne1 by congruence.
  assert (key ≠ "") as Hne2 by congruence.
  unfold create, create_skill_version, load_by_id, save, new_version.
  destruct config as [id user title version approved timestamp rest]; simpl.
  destruct (truthy user); simpl.
  - destruct id as [given|]; simpl.
    + destruct (String.eqb_spec given "") as [->|Hgiven]; simpl.
      * by rewrite lookup_insert_ne.
      * destruct (db !! given) as [owned|] eqn:Hgiven'; simpl; [|done].
        case_bool_decide as Howner; simpl; [done|].
        rewrite lookup_insert_ne; [done|]. intros <-. congruence.
    + by rewrite !lookup_insert_ne.
  - by rewrite !lookup_insert_ne.
Qed.

(** X25: when [create_skill_version] answers an identifier and a version,
    the document stored under the identifier is the posted configuration
    with that identifier, the current user as its user, that version, not
    approved, and the time of the call; the version is 1 for a new
    document and one more than the stored version when a document of the
    user is replaced. *)
Theorem create_skill_version_saved
    (current_user : User.t) (config : SkillConfig.t) (now : string)
    (db db' : gmap string SkillConfig.t) (id_ : string) (v : Z) :
  create current_user config now db = (inr (id_, v), db') →
  db' !! id_
  = Some (SkillConfig.mk (Some id_) (Some (User.id current_user))
            (SkillConfig.title config) v false (Some now)
            (SkillConfig.rest config))
  ∧ ((v = 1%Z ∧ truthy (SkillConfig.id config)
                && truthy (SkillConfig.user_id config) = false)
     ∨ ∃ previous,
         SkillConfig.id config = Some id_
         ∧ db !! id_ = Some previous
         ∧ SkillConfig.user_id previous = Some (User.id current_user)
         ∧ v = (SkillConfig.version previous + 1)%Z).
Proof.
  unfold create, create_skill_version, load_by_id, save, new_version.
  destruct config as [id user title version approved timestamp rest]; simpl.
  destruct (truthy user) eqn:Huser; simpl.
  - destruct id as [given|]; simpl.
    + destruct (String.eqb_spec given "") as [->|Hgiven]; simpl.
      * intros [= <- <- <-]. split; [apply lookup_insert_eq|by left].
      * destruct (db !! given) as [owned|] eqn:Hgiven'; simpl; [|done].
        case_bool_decide as Howner; simpl; [done|].
        intros [= <- <- <-]. split; [apply lookup_insert_eq|].
        right. by exists owned.
    + intros [= <- <- <-]. split; [apply lookup_insert_eq|by left].
  - intros [= <- <- <-]. split; [apply lookup_insert_eq|left].
    split; [done|]. by rewrite andb_false_r.
Qed.

(** X26: a skill just created or replaced cannot be executed: for the
    user who posted it, [execute_skill] on the answered identifier raises
    403 "Skill not approved", without calling the skill service and
    without changing the collection. *)
Theorem create_skill_version_then_execute
    (current_user : User.t) (config : SkillConfig.t) (now prompt : string)
    (db db' : gmap string SkillConfig.t) (id_ : string) (v : Z) :
  create current_user config now db = (inr (id_, v), db') →
  execute current_user (mkSkillExecutePostRequest id_ prompt) db'
  = (http_error Failure 403 "Skill not approved", db').
Proof.
  intros Hcreate.
  destruct (create_skill_version_saved _ _ _ _ _ _ _ Hcreate) as [Hstored _].
  unfold execute, execute_skill, load_by_id. simpl. rewrite Hstored. simpl.
  rewrite bool_decide_false by (intros H; by apply H).
  by rewrite andb_false_r.
Qed.

(** X27: once [approve_skill] has been called on a stored document that
    carries its identifier, [execute_skill] calls the skill service with
    the title of the document and the prompt, for every user when the
    document is a common one and for its user otherwise, and answers what
    the service returns or raises what it raises. *)
Theorem approve_skill_then_execute
    (superuser current_user : User.t) (id_ prompt : string)
    (db : gmap string SkillConfig.t) (config : SkillConfig.t) :
  db !! id_ = Some config →
  SkillConfig.id config = Some id_ →
  truthy (SkillConfig.user_id config) = false
  ∨ SkillConfig.user_id config = Some (User.id current_user) →
  let db' := (approve superuser id_ db).2 in
  approve superuser id_ db = (inr "Skill configuration approved", db')
  ∧ db' !! id_ = Some (SkillConfig.set_approved true config)
  ∧ execute current_user (mkSkillExecutePostRequest id_ prompt) db'
    = (match SkillService_execute_skill (SkillConfig.title config) prompt with
       | inl e => inl (RaisedOther e)
       | inr output => inr output
       end, db').
Proof.
  intros Hconfig Hid Hvisible.
  unfold approve, approve_skill, execute, execute_skill, load_by_id, save.
  rewrite Hconfig. simpl. rewrite Hid. simpl.
  split; [done|]. rewrite lookup_insert_eq. split; [done|]. simpl.
  assert (truthy (SkillConfig.user_id config)
          && bool_decide (SkillConfig.user_id config ≠ Some (User.id current_user))
          = false) as ->.
  { destruct Hvisible as [->|Howner]; [done|].
    rewrite bool_decide_false by (intros H; by apply H). apply andb_false_r. }
  by destruct (SkillService_execute_skill _ _).
Qed.

(** X28: [delete_skill] reaches the storage only for a document of the
    current user: when the identifier is not stored it raises 404, when
    the document is another user's or nobody's it raises 403, and in both
    cases the collection is as before. *)
Theorem delete_skill_refused
    (current_user : User.t) (id : string) (db : gmap string SkillConfig.t) :
  (∀ config, db !! id = Some config →
             SkillConfig.user_id config ≠ Some (User.id current_user)) →
  delete_skill storage_delete Failure current_user id db
  = (match db !! id with
     | Some _ => http_error Failure 403 no_permission
     | None => http_error Failure 404 "Skill not found"
     end, db).
Proof.
  intros Hother. unfold delete_skill, load_by_id.
  destruct (db !! id) as [config|] eqn:Hid; [|done].
  by rewrite bool_decide_true by by apply Hother.
Qed.

End SkillRouteFacts.

Lemma save_then_load_by_id_witness :
  let posted := SkillConfig.mk None (Some "alice") "t" 1 false None "" in
  (save auto_id_stub posted skills_db).1 = ("doc-iii", 1%Z)
  ∧ load_by_id "doc-iii" (save auto_id_stub posted skills_db).2
    = Some (SkillConfig.set_id (Some "doc-iii") posted)
  ∧ load_by_id "s3" (save auto_id_stub posted skills_db).2
    = load_by_id "s3" skills_db
  ∧ ids_consistent (save auto_id_stub posted ∅).2.
Proof.
  intros posted.
  destruct (save_then_load_by_id auto_id_stub posted skills_db)
    as (Hid & Hversion & Hload & Hothers & _).
  destruct (save_then_load_by_id auto_id_stub posted ∅) as (_ & _ & _ & _ & Hkeeps).
  split; [vm_compute; reflexivity|].
  split; [exact Hload|]. split.
  - apply Hothers. vm_compute. discriminate.
  - apply Hkeeps. intros key config H. by rewrite lookup_empty in H.
Defined.

Lemma load_by_queries_witness :
  (skill_of "s2" None 1 true ∈ load_by_user_id map_to_list None skills_db)
  ∧ load_by_title map_to_list "no such title" skills_db = None.
Proof.
  destruct (load_by_queries map_to_list skills_db) as (Huser & _ & Htitle);
    [reflexivity|].
  split.
  - apply Huser. exists "s2". split; [vm_compute; reflexivity|reflexivity].
  - vm_compute. reflexivity.
Defined.

Lemma get_skill_config_visible_witness :
  (get_skill_config string alice "s2" skills_db).1 = inr (skill_of "s2" None 1 true)
  ∧ (get_skill_config string alice "s2" skills_db).2 = skills_db.
Proof.
  destruct (get_skill_config_visible string alice "s2" skills_db
              (skill_of "s2" None 1 true)) as [Hiff Hsame].
  split; [|exact Hsame].
  apply Hiff. split; [vm_compute; reflexivity|by left].
Defined.

Lemma create_skill_version_keeps_others_witness :
  (create_skill_version auto_id_stub string alice
     (skill_of "s3" (Some "alice") 7 true) "2024-05-01T00:00:00" skills_db).2
    !! "s3"
  = Some (skill_of "s3" (Some "bob") 2 false).
Proof.
  apply create_skill_version_keeps_others.
  - vm_compute. reflexivity.
  - vm_compute. reflexivity.
  - vm_compute. reflexivity.
  - discriminate.
Defined.

Lemma create_skill_version_saved_witness :
  let posted := skill_of "s1" (Some "mallory") 40 true in
  let db' := (create_skill_version auto_id_stub string alice posted
                "2024-05-01T00:00:00" skills_db).2 in
  db' !! "s1"
  = Some (SkillConfig.mk (Some "s1") (Some "alice") "title s1" 4 false
            (Some "2024-05-01T00:00:00") "def run(): pass").
Proof.
  intros posted db'.
  apply (create_skill_version_saved auto_id_stub string alice posted
           "2024-05-01T00:00:00" skills_db db' "s1" 4).
  vm_compute. reflexivity.
Defined.

Lemma create_skill_version_then_execute_witness :
  let posted := skill_of "s1" (Some "alice") 3 true in
  let db' := (create_skill_version auto_id_stub string alice posted
                "2024-05-01T00:00:00" skills_db).2 in
  execute_skill string service_stub alice (mkSkillExecutePostRequest "s1" "go") db'
  = (http_error string 403 "Skill not approved", db').
Proof.
  intros posted db'.
  apply (create_skill_version_then_execute auto_id_stub string service_stub
           alice posted "2024-05-01T00:00:00" "go" skills_db db' "s1" 4).
  vm_compute. reflexivity.
Defined.

Lemma approve_skill_then_execute_witness :
  let db' := (approve_skill auto_id_stub string alice "s3" skills_db).2 in
  db' !! "s3" = Some (skill_of "s3" (Some "bob") 2 true)
  ∧ execute_skill string service_stub bob (mkSkillExecutePostRequest "s3" "go") db'
    = (inr "title s3: go", db').
Proof.
  intros db'.
  destruct (approve_skill_then_execute auto_id_stub string service_stub
              alice bob "s3" "go" skills_db (skill_of "s3" (Some "bob") 2 false))
    as (_ & Hstored & Hexecute).
  - vm_compute. reflexivity.
  - reflexivity.
  - by right.
  - split; [exact Hstored|exact Hexecute].
Defined.

Lemma delete_skill_refused_witness :
  delete_skill (λ id db, delete id db) string alice "s2" skills_db
  = (http_error string 403 no_permission, skills_db)
  ∧ delete_skill (λ id db, delete id db) string alice "s9" skills_db
    = (http_error string 404 "Skill not found", skills_db).
Proof.
  split.
  - rewrite (delete_skill_refused (λ id db, delete id db) string alice "s2" skills_db).
    + vm_compute. reflexivity.
    + intros config H. vm_compute in H. injection H as <-. discriminate.
  - rewrite (delete_skill_refused (λ id db, delete id db) string alice "s9" skills_db).
    + vm_compute. reflexivity.
    + intros config H. vm_compute in H. discriminate.
Defined.

(** * The chat route *)

Section ChatFacts.
Variables (Api Failure ToolCall Output : Type).
Variable IndexError : Failure.
Variable assistant_id : string.
Variable messages_create : string → string → Api → Failure + Api.
Variable runs_create : string → string → Api → Failure + (string * Api).
Variable runs_retrieve : string → string → Api → Failure + (RunStatus ToolCall * Api).
Variable handle_action : ToolCall → string → string → Api → Failure + (Output * Api).
Variable tool_call_id : ToolCall → string.
Variable json_dumps : Output → Failure + string.
Variable submit_tool_outputs :
  string → string → list (string * string) → Api → Failure + Api.
Variable messages_list : string → Api → Failure + (list (list string) * Api).

Let the_poll :=
  poll Api Failure ToolCall Output runs_retrieve handle_action tool_call_id
       json_dumps submit_tool_outputs.
Let the_chat :=
  chat Api Failure ToolCall Output IndexError assistant_id messages_create
       runs_create runs_retrieve handle_action tool_call_id json_dumps
       submit_tool_outputs messages_list.


(** X29: a run that never reports "completed" keeps [chat] in its loop for
    good: when the message is posted and the run created, and every poll
    returns a status that is neither "completed" nor "requires_action"
    (such as "failed", "cancelled" or "expired"), [chat] has not answered
    after any number of polls. *)
Theorem chat_polls_forever
    (thread_id user_input run_id : string) (api api1 api2 : Api) :
  thread_id ≠ "" →
  messages_create thread_id user_input api = inr api1 →
  runs_create thread_id assistant_id api1 = inr (run_id, api2) →
  (∀ a, ∃ run_status a',
     runs_retrieve thread_id run_id a = inr (run_status, a')
     ∧ status run_status ≠ "completed"
     ∧ status run_status ≠ "requires_action") →
  ∀ polls, (the_chat polls (Some thread_id) user_input api).1 = StillPolling.
Proof.
  intros Hthread Hpost Hrun Hnever polls.
  assert (∀ a, the_poll polls thread_id run_id a = None) as Hpoll.
  { induction polls as [|polls IH]; intros a; [done|].
    unfold the_poll in *. simpl.
    destruct (Hnever a) as (run_status & a' & -> & H1 & H2).
    apply String.eqb_neq in H1, H2. by rewrite H1, H2. }
  unfold the_chat, chat. fold the_poll.
  rewrite (proj2 (truthy_Some thread_id) Hthread). simpl.
  by rewrite Hpost, Hrun, Hpoll.
Qed.


End ChatFacts.

Lemma chat_polls_forever_witness :
  (chat_stub retrieve_failed 1000 (Some "thread_1") "hi" 0).1 = StillPolling.
Proof.
  apply (chat_polls_forever nat string string string "IndexError" "asst_1"
           (λ _ _ api, inr api) (λ _ _ api, inr ("run_1", api)) retrieve_failed
           (λ _ _ _ api, inr ("done", api)) id (λ output, inr output)
           (λ _ _ _ api, inr api) (λ _ api, inr ([["Hello"]], api))
           "thread_1" "hi" "run_1" 0 0 0).
  - discriminate.
  - reflexivity.
  - reflexivity.
  - intros a. exists (mkRunStatus "failed" []), (S a).
    split; [reflexivity|]. split; discriminate.
Defined.

